(** * kapa-xsd: the [xsd] helper namespace over an XML DOM

    A shallow embedding of [xsd.js] (the six query functions of the
    [xsd] namespace object) together with the parts of the platform it
    calls: the string and number primitives of the language ([split],
    [parseInt], truthiness), underscore's [find], and the DOM interface
    ([children], [getAttribute], [getAttributeNS], [lookupNamespaceURI],
    [querySelectorAll]).

    Conventions of the embedding.
    - A string is a [string]: a sequence of code units below 256.
    - [null] and [undefined] results are [None]; a value that may be
      [null] is an [option].
    - A Number is a [number]: the integer-valued doubles, the zero
      with a minus sign, the infinities and [NaN]; an integer that
      [parseInt] reads is rounded to the nearest double.
    - A call that can throw returns a [result]. *)

From Stdlib Require Import List String Ascii ZArith Bool Lia.
From Stdlib Require Import DecimalString DecimalNat DecimalFacts.
Import ListNotations.

Local Open Scope list_scope.
Local Open Scope string_scope.

(* ================================================================= *)
(** ** Language primitives *)

Module JS.

(** Exceptions the modelled calls can raise. *)
Inductive exn := TypeError | SyntaxError.

Inductive result (A : Type) :=
| Ok (v : A)
| Throw (e : exn).
Arguments Ok {A} v.
Arguments Throw {A} e.

(** The Number values that the module produces: the doubles that
    [parseInt] can return, and the values the code writes itself.
    [Num z] is the double whose value is the integer [z]; the zero with
    a minus sign and the two infinities stand apart. *)
Inductive number :=
| NaN
| Infinity
| NegInfinity
| NegZero
| Num (z : Z).

(** The double-quote character and the one-character string of it. *)
Definition dquote : ascii := "034"%char.
Definition quote : string := String dquote EmptyString.

(** ToBoolean on a string: only the empty string is falsy. *)
Definition truthy (s : string) : bool :=
  match s with
  | EmptyString => false
  | String _ _ => true
  end.

(** [s.split(c)] for a one-character separator [c]: the pieces of [s]
    between the occurrences of [c], in order.  The empty string splits
    into one empty piece. *)
Fixpoint split (c : ascii) (s : string) : list string :=
  match s with
  | EmptyString => [EmptyString]
  | String a s' =>
      if Ascii.eqb a c then EmptyString :: split c s'
      else match split c s' with
           | piece :: pieces => String a piece :: pieces
           | [] => [String a EmptyString]
           end
  end.

(** White space and line terminators that [parseInt] skips
    (TAB, LF, VT, FF, CR, SP, NBSP). *)
Definition isWhiteSpace (a : ascii) : bool :=
  let n := nat_of_ascii a in
  ((9 <=? n) && (n <=? 13) || (n =? 32) || (n =? 160))%nat.

Definition isDigit (a : ascii) : bool :=
  let n := nat_of_ascii a in
  ((48 <=? n) && (n <=? 57))%nat.

Definition digitValue (a : ascii) : Z :=
  (Z.of_nat (nat_of_ascii a) - 48)%Z.

Fixpoint trimStart (s : string) : string :=
  match s with
  | String a s' => if isWhiteSpace a then trimStart s' else s
  | EmptyString => EmptyString
  end.

(** The value of the longest prefix of decimal digits, read left to
    right into an accumulator. *)
Fixpoint readDigits (acc : Z) (s : string) : Z :=
  match s with
  | String a s' =>
      if isDigit a then readDigits (10 * acc + digitValue a) s' else acc
  | EmptyString => acc
  end.

(** The double nearest to the integer [m], for [m] positive: [m] itself
    below 2^53; above, [m] is cut to 53 significant bits, a tie going to
    the even neighbour; [None] when the result passes the largest
    double. *)
Definition roundToDouble (m : Z) : option Z :=
  if (m <? 2 ^ 53)%Z then Some m
  else
    let e := (Z.log2 m - 52)%Z in
    let q := (m / 2 ^ e)%Z in
    let r := (m mod 2 ^ e)%Z in
    let half := (2 ^ (e - 1))%Z in
    let q' :=
      if (half <? r)%Z || ((r =? half)%Z && Z.odd q) then (q + 1)%Z
      else q in
    if (2 ^ 1024 <=? q' * 2 ^ e)%Z then None else Some (q' * 2 ^ e)%Z.

(** The Number for [sign] times [m], [sign] being 1 or -1 and [m] the
    integer read from the digits: a zero keeps the sign, and a value
    past the largest double is an infinity. *)
Definition toNumber (sign m : Z) : number :=
  if (m =? 0)%Z then
    if (sign =? -1)%Z then NegZero else Num 0
  else
    match roundToDouble m with
    | Some v => Num (sign * v)
    | None => if (sign =? -1)%Z then NegInfinity else Infinity
    end.

(** [parseInt(s, 10)]: leading white space is skipped, one sign is
    accepted, then the longest run of decimal digits is read; text after
    it is ignored; no digit at all gives [NaN]; the integer read becomes
    a Number. *)
Definition parseInt10 (s : string) : number :=
  let t := trimStart s in
  let sign :=
    match t with
    | String a _ => if Ascii.eqb a "-" then (-1)%Z else 1%Z
    | EmptyString => 1%Z
    end in
  let body :=
    match t with
    | String a r => if Ascii.eqb a "+" || Ascii.eqb a "-" then r else t
    | EmptyString => t
    end in
  match body with
  | String a _ =>
      if isDigit a then toNumber sign (readDigits 0 body) else NaN
  | EmptyString => NaN
  end.

End JS.

(* ================================================================= *)
(** ** The DOM *)

Module DOM.

Record Attr := {
  attrNamespaceURI : option string;
  attrPrefix : option string;
  attrLocalName : string;
  attrValue : string
}.

(** An element with its attributes and its element children (what
    [children] enumerates; text and comment nodes are not elements). *)
#[warnings="-register-all"]
Inductive Element := {
  namespaceURI : option string;
  prefix : option string;
  localName : string;
  attributes : list Attr;
  childElements : list Element
}.

(** A node as the module receives it: the element and the chain of its
    ancestors, nearest first, which is what [lookupNamespaceURI] walks.
    Siblings of equal content are not told apart. *)
Record Node := {
  element : Element;
  ancestors : list Element
}.

(** A parsed document: the tree of its root element. *)
Record Document := {
  rootElement : Element
}.

(** [doc.documentElement]: the root has no ancestor. *)
Definition documentElement (doc : Document) : Node :=
  {| element := rootElement doc; ancestors := [] |}.

Definition xmlNamespace : string := "http://www.w3.org/XML/1998/namespace".
Definition xmlnsNamespace : string := "http://www.w3.org/2000/xmlns/".

Definition opt_eqb (a b : option string) : bool :=
  match a, b with
  | Some x, Some y => String.eqb x y
  | None, None => true
  | _, _ => false
  end.

(** [node.children], in document order. *)
Definition children (n : Node) : list Node :=
  map (fun c => {| element := c; ancestors := element n :: ancestors n |})
      (childElements (element n)).

Definition qualifiedName (a : Attr) : string :=
  match attrPrefix a with
  | Some p => p ++ ":" ++ attrLocalName a
  | None => attrLocalName a
  end.

(** [node.getAttribute(qualifiedName)]: the value of the first attribute
    with that qualified name, [null] when there is none. *)
Definition getAttribute (n : Node) (name : string) : option string :=
  option_map attrValue
    (find (fun a => String.eqb (qualifiedName a) name)
          (attributes (element n))).

(** [node.getAttributeNS(namespace, localName)]; an empty namespace
    argument stands for no namespace. *)
Definition getAttributeNS (n : Node) (ns : string) (name : string)
  : option string :=
  let ns' := if JS.truthy ns then Some ns else None in
  option_map attrValue
    (find (fun a => opt_eqb (attrNamespaceURI a) ns'
                    && String.eqb (attrLocalName a) name)
          (attributes (element n))).

(** The namespace declaration for [pfx] carried by [e] itself:
    [xmlns:pfx="..."], or [xmlns="..."] when [pfx] is null. *)
Definition declares (pfx : option string) (a : Attr) : bool :=
  opt_eqb (attrNamespaceURI a) (Some xmlnsNamespace)
  && match pfx with
     | Some p => opt_eqb (attrPrefix a) (Some "xmlns")
                 && String.eqb (attrLocalName a) p
     | None => opt_eqb (attrPrefix a) None
               && String.eqb (attrLocalName a) "xmlns"
     end.

(** "Locate a namespace" of the DOM standard, along the chain made of an
    element followed by its ancestors. *)
Fixpoint locateNamespace (chain : list Element) (pfx : option string)
  : option string :=
  match chain with
  | [] => None
  | e :: up =>
      if opt_eqb pfx (Some "xml") then Some xmlNamespace
      else if opt_eqb pfx (Some "xmlns") then Some xmlnsNamespace
      else if
        match namespaceURI e with
        | Some ns => opt_eqb (prefix e) pfx
        | None => false
        end
      then namespaceURI e
      else
        match find (declares pfx) (attributes e) with
        | Some a =>
            if JS.truthy (attrValue a) then Some (attrValue a) else None
        | None => locateNamespace up pfx
        end
  end.

(** [node.lookupNamespaceURI(prefix)]: the empty prefix asks for the
    default namespace. *)
Definition lookupNamespaceURI (n : Node) (pfx : string) : option string :=
  locateNamespace (element n :: ancestors n)
                  (if JS.truthy pfx then Some pfx else None).

(** The element [e] below the ancestors [up], followed by its
    descendants: the elements of a subtree in document order. *)
Fixpoint subtree (up : list Element) (e : Element) : list Node :=
  {| element := e; ancestors := up |}
    :: flat_map (subtree (e :: up)) (childElements e).

(** All elements of a document, in document order. *)
Definition elements (doc : Document) : list Node :=
  subtree [] (rootElement doc).

(** *** Selectors

    The selector engine is modelled on the selector shape the module
    builds: a comma-separated list of compound selectors
    [type[attr="value"]], where the value is a double-quoted string
    without escapes.  The text is read by a one-pass automaton.  Other
    selector texts, valid ones among them (several attribute tests on
    one type, an escape or NUL inside the string), are outside the
    model: the automaton refuses them, and nothing is stated about
    them.  The refusals that statements rest on are of texts that no
    engine reads: a string broken by a line break, and text other than
    a closing bracket after the closing quote of a lone double-quote
    name. *)

Record Compound := {
  selType : string;
  selAttr : string;
  selValue : string
}.

Inductive ParseState :=
| InType (done : list Compound) (ty : string)
| InAttr (done : list Compound) (ty an : string)
| AtQuote (done : list Compound) (ty an : string)
| InValue (done : list Compound) (ty an v : string)
| AtClose (done : list Compound) (ty an v : string)
| AtEnd (done : list Compound)
| Rejected.

(** Characters that may start an identifier (letters and [_]) and
    characters that may continue it (also digits and [-]). *)
Definition isNameStart (a : ascii) : bool :=
  let n := nat_of_ascii a in
  ((65 <=? n) && (n <=? 90) || (97 <=? n) && (n <=? 122)
   || (n =? 95))%nat.

Definition isNameChar (a : ascii) : bool :=
  let n := nat_of_ascii a in
  (isNameStart a || (48 <=? n) && (n <=? 57) || (n =? 45))%nat.

(** May [a] extend the identifier read so far? *)
Definition extends (name : string) (a : ascii) : bool :=
  if JS.truthy name then isNameChar a else isNameStart a.

(** Characters that may not stand for themselves inside a double-quoted
    string: the quote, the backslash, NUL and the line breaks. *)
Definition isStringSpecial (a : ascii) : bool :=
  let n := nat_of_ascii a in
  ((n =? 34) || (n =? 92) || (n =? 0)
   || (n =? 10) || (n =? 12) || (n =? 13))%nat.

Definition snoc (s : string) (a : ascii) : string :=
  s ++ String a EmptyString.

Definition step (st : ParseState) (a : ascii) : ParseState :=
  match st with
  | InType done ty =>
      if extends ty a then InType done (snoc ty a)
      else if Ascii.eqb a "[" && JS.truthy ty then InAttr done ty ""
      else Rejected
  | InAttr done ty an =>
      if extends an a then InAttr done ty (snoc an a)
      else if Ascii.eqb a "=" && JS.truthy an then AtQuote done ty an
      else Rejected
  | AtQuote done ty an =>
      if Ascii.eqb a JS.dquote then InValue done ty an "" else Rejected
  | InValue done ty an v =>
      if Ascii.eqb a JS.dquote then AtClose done ty an v
      else if isStringSpecial a then Rejected
      else InValue done ty an (snoc v a)
  | AtClose done ty an v =>
      if Ascii.eqb a "]" then
        AtEnd (done ++ [{| selType := ty; selAttr := an;
                           selValue := v |}])%list
      else Rejected
  | AtEnd done =>
      if Ascii.eqb a "," then InType done "" else Rejected
  | Rejected => Rejected
  end.

Fixpoint run (st : ParseState) (s : string) : ParseState :=
  match s with
  | EmptyString => st
  | String a s' => run (step st a) s'
  end.

Definition parseSelector (s : string) : option (list Compound) :=
  match run (InType [] "") s with
  | AtEnd done => Some done
  | _ => None
  end.

(** A type selector without a namespace prefix matches the local name
    in any namespace; an attribute selector without a namespace prefix
    matches an attribute that is in no namespace. *)
Definition matchesCompound (n : Node) (c : Compound) : bool :=
  String.eqb (localName (element n)) (selType c)
  && existsb (fun a => opt_eqb (attrNamespaceURI a) None
                       && String.eqb (attrLocalName a) (selAttr c)
                       && String.eqb (attrValue a) (selValue c))
             (attributes (element n)).

(** [doc.querySelectorAll(selector)]: the elements of the document that
    match one of the compound selectors, in document order; a selector
    text that is not read throws. *)
Definition querySelectorAll (doc : Document) (selector : string)
  : JS.result (list Node) :=
  match parseSelector selector with
  | Some cs => JS.Ok (filter (fun n => existsb (matchesCompound n) cs)
                             (elements doc))
  | None => JS.Throw JS.SyntaxError
  end.

End DOM.

(* ================================================================= *)
(** ** The [xsd] namespace object *)

Module xsd.
Import JS DOM.

(** The XML Schema namespace URI. *)
Definition xs : string := "http://www.w3.org/2001/XMLSchema".

(** The XML Schema Instance namespace URI. *)
Definition xsi : string := "http://www.w3.org/2001/XMLSchema-instance".

(** The type of an element: [{ namespaceURI, name }]; [typeName] is
    [None] when the property holds [undefined]. *)
Record TypeReference := {
  typeNamespaceURI : option string;
  typeName : option string
}.

Record OccursRange := {
  min : number;
  max : number
}.

(** Find root [element] element with the given name in a document. *)
Definition findElement (doc : Document) (name : string) : option Node :=
  find (fun child =>
          opt_eqb (namespaceURI (element child)) (Some xs)
          && String.eqb (localName (element child)) "element"
          && opt_eqb (getAttribute child "name") (Some name))
       (children (documentElement doc)).

(** Find type definition for the given type in a document. *)
Definition findTypeDefinition (doc : Document) (type : string)
  : result (list Node) :=
  let selector :=
    ("complexType[name=" ++ quote) ++ type ++ (quote ++ "],")
    ++ ("simpleType[name=" ++ quote) ++ type ++ (quote ++ "]") in
  querySelectorAll doc selector.

(** Reads the type of the element from its given attribute, resolves
    namespace URI too. *)
Definition getTypeFromNodeAttr (node : Node) (typeAttr : string)
    (typeAttrNS : option string) : option TypeReference :=
  let type :=
    match typeAttrNS with
    | Some ns =>
        if truthy ns then getAttributeNS node ns typeAttr
        else getAttribute node typeAttr
    | None => getAttribute node typeAttr
    end in
  match type with
  | Some t =>
      if truthy t then
        let parts := split ":" t in
        Some {| typeNamespaceURI := lookupNamespaceURI node (hd "" parts);
                typeName := nth_error parts 1 |}
      else None
  | None => None
  end.

(** Finds the type that is restricted by the given element. *)
Definition getRestrictedType (node : Node) : option TypeReference :=
  let element_ :=
    find (fun child =>
            opt_eqb (namespaceURI (element child)) (Some xs)
            && String.eqb (localName (element child)) "restriction")
         (children node) in
  match element_ with
  | Some e => getTypeFromNodeAttr e "base" None
  | None => None
  end.

(** Retrieves the facets this element specifies as a restriction. *)
Definition findRestrictingFacets (node : Node) : result (list Node) :=
  let element_ :=
    find (fun child =>
            opt_eqb (namespaceURI (element child)) (Some xs)
            && String.eqb (localName (element child)) "restriction")
         (children node) in
  match element_ with
  | Some e => Ok (children e)
  | None => Throw TypeError
  end.

(** Parses the [minOccurs] and [maxOccurs] attributes of the node given. *)
Definition parseMinMaxOccurs (xsdNode : Node) : OccursRange :=
  let min :=
    match getAttribute xsdNode "minOccurs" with
    | None => Num 1
    | Some m => if String.eqb m "" then Num 1 else parseInt10 m
    end in
  let max :=
    match getAttribute xsdNode "maxOccurs" with
    | None => Num 1
    | Some m =>
        if String.eqb m "" then Num 1
        else if String.eqb m "unbounded" then Infinity
        else parseInt10 m
    end in
  {| min := min; max := max |}.

End xsd.

(* ================================================================= *)
(** ** Vocabulary of the specification *)

Module Spec.
Import JS DOM xsd.

(** [x] is the first element of [l] that satisfies [P]. *)
Definition firstMatch {A : Type} (P : A -> Prop) (l : list A) (x : A)
  : Prop :=
  exists l1 l2, l = (l1 ++ x :: l2)%list /\ P x
                /\ Forall (fun y => ~ P y) l1.

(** An [xs:element] declaration called [name]. *)
Definition isElementNamed (name : string) (n : Node) : Prop :=
  namespaceURI (element n) = Some xs
  /\ localName (element n) = "element"
  /\ getAttribute n "name" = Some name.

(** An [xs:restriction] element. *)
Definition isRestriction (n : Node) : Prop :=
  namespaceURI (element n) = Some xs
  /\ localName (element n) = "restriction".

(** The two tests the module hands to [find], named. *)
Definition elementTest (name : string) (child : Node) : bool :=
  opt_eqb (namespaceURI (element child)) (Some xs)
  && String.eqb (localName (element child)) "element"
  && opt_eqb (getAttribute child "name") (Some name).

Definition restrictionTest (child : Node) : bool :=
  opt_eqb (namespaceURI (element child)) (Some xs)
  && String.eqb (localName (element child)) "restriction".

(** The attribute that [getTypeFromNodeAttr] reads: in the namespace
    [ns] when one is given, the plain attribute otherwise. *)
Definition attributeValue (n : Node) (name : string) (ns : option string)
  : option string :=
  match ns with
  | Some (String a u) => getAttributeNS n (String a u) name
  | _ => getAttribute n name
  end.

(** The text of [s] before the first [c] (all of [s] without one). *)
Fixpoint upto (c : ascii) (s : string) : string :=
  match s with
  | EmptyString => EmptyString
  | String a s' => if Ascii.eqb a c then EmptyString
                   else String a (upto c s')
  end.

(** The text of [s] after the first [c], if [c] occurs. *)
Fixpoint after (c : ascii) (s : string) : option string :=
  match s with
  | EmptyString => None
  | String a s' => if Ascii.eqb a c then Some s' else after c s'
  end.

Fixpoint occurs (c : ascii) (s : string) : bool :=
  match s with
  | EmptyString => false
  | String a s' => Ascii.eqb a c || occurs c s'
  end.

Fixpoint forallb_string (p : ascii -> bool) (s : string) : bool :=
  match s with
  | EmptyString => true
  | String a s' => p a && forallb_string p s'
  end.

(** The text of an integer: an optional sign and one digit or more,
    nothing else. *)
Definition isIntegerText (s : string) : bool :=
  let body :=
    match s with
    | String "-" r => r
    | String "+" r => r
    | _ => s
    end in
  truthy body && forallb_string isDigit body.

(** [s] starts, after white space and an optional sign, with a digit. *)
Definition integerPrefixed (s : string) : Prop :=
  exists ws sg d rest,
    s = ws ++ sg ++ String d rest
    /\ forallb_string isWhiteSpace ws = true
    /\ (sg = "" \/ sg = "+" \/ sg = "-")
    /\ isDigit d = true.

(** The integer written by a string of digits. *)
Fixpoint decimalValue (s : string) : Z :=
  match s with
  | EmptyString => 0
  | String a s' =>
      (digitValue a * 10 ^ Z.of_nat (String.length s') + decimalValue s')%Z
  end.

(** A type name that can stand unescaped between the double quotes of
    a selector. *)
Definition selectorSafe (type : string) : Prop :=
  forallb_string (fun a => negb (isStringSpecial a)) type = true.

(** A [complexType] or [simpleType] element, of any namespace, with a
    plain [name] attribute equal to [type]. *)
Definition isTypeDefinitionNamed (type : string) (n : Node) : bool :=
  (String.eqb (localName (element n)) "complexType"
   || String.eqb (localName (element n)) "simpleType")
  && existsb (fun a => opt_eqb (attrNamespaceURI a) None
                       && String.eqb (attrLocalName a) "name"
                       && String.eqb (attrValue a) type)
             (attributes (element n)).

End Spec.

(* ================================================================= *)
(** ** Sample documents *)

Module Samples.
Import JS DOM xsd.

Definition attr (name value : string) : Attr :=
  {| attrNamespaceURI := None; attrPrefix := None;
     attrLocalName := name; attrValue := value |}.

(** [xmlns:pfx="uri"]. *)
Definition nsdecl (pfx uri : string) : Attr :=
  {| attrNamespaceURI := Some xmlnsNamespace; attrPrefix := Some "xmlns";
     attrLocalName := pfx; attrValue := uri |}.

(** An element [xs:name] of the XML Schema namespace. *)
Definition xsElem (name : string) (attrs : list Attr)
    (kids : list Element) : Element :=
  {| namespaceURI := Some xs; prefix := Some "xs"; localName := name;
     attributes := attrs; childElements := kids |}.

(** An element of another vocabulary that reuses a schema tag name. *)
Definition otherElem (name : string) (attrs : list Attr)
    (kids : list Element) : Element :=
  {| namespaceURI := Some "urn:example:other"; prefix := Some "o";
     localName := name; attributes := attrs; childElements := kids |}.

Definition item : Element :=
  xsElem "element"
    [attr "name" "item"; attr "type" "xs:string";
     attr "minOccurs" "0"; attr "maxOccurs" "5"] [].

Definition code : Element :=
  xsElem "simpleType" [attr "name" "code"]
    [xsElem "annotation" [] [];
     xsElem "restriction" [attr "base" "xs:string"]
       [xsElem "minLength" [attr "value" "1"] [];
        xsElem "maxLength" [attr "value" "5"] []]].

Definition order : Element :=
  xsElem "complexType" [attr "name" "order"]
    [xsElem "sequence" []
       [xsElem "element"
          [attr "name" "line"; attr "type" "code";
           attr "maxOccurs" "unbounded"] []]].

Definition schema : Document :=
  {| rootElement :=
       xsElem "schema" [nsdecl "xs" xs] [item; order; code] |}.

Definition nodeAt (up : list Element) (e : Element) : Node :=
  {| element := e; ancestors := up |}.

Definition schemaNode : Node := documentElement schema.
Definition itemNode : Node := nodeAt [rootElement schema] item.
Definition orderNode : Node := nodeAt [rootElement schema] order.
Definition codeNode : Node := nodeAt [rootElement schema] code.

(** A document in which another vocabulary has a [complexType] too. *)
Definition mixed : Document :=
  {| rootElement :=
       xsElem "schema" [nsdecl "xs" xs; nsdecl "o" "urn:example:other"]
         [otherElem "complexType" [attr "name" "order"] []] |}.

(** A document made of one [xs:element] with one plain attribute, and
    that element. *)
Definition holderDoc (name value : string) : Document :=
  {| rootElement :=
       xsElem "element" [nsdecl "xs" xs; attr name value] [] |}.

Definition holder (name value : string) : Node :=
  documentElement (holderDoc name value).

(** A schema that defines the type [t] twice. *)
Definition ambiguous : Document :=
  {| rootElement :=
       xsElem "schema" [nsdecl "xs" xs]
         [xsElem "simpleType" [attr "name" "t"] [];
          xsElem "element" [attr "name" "e"]
            [xsElem "complexType" [attr "name" "t"] []]] |}.

(** The schema after [item] was renamed. *)
Definition renamed : Document :=
  {| rootElement :=
       xsElem "schema" [nsdecl "xs" xs]
         [xsElem "element" [attr "name" "entry"] []; order; code] |}.

End Samples.


(* ================================================================= *)
(** ** Further vocabulary *)

Module Terms.
Import JS DOM xsd.

(** The nodes of a document: its root element and, step by step, the
    children of its nodes. *)
Inductive inDocument (doc : Document) : Node -> Prop :=
| in_root : inDocument doc (documentElement doc)
| in_child (n c : Node) :
    inDocument doc n -> In c (children n) -> inDocument doc c.

(** An integer that a double holds exactly: at most 53 significant
    bits, below 2^1024. *)
Definition isDouble (z : Z) : Prop :=
  exists q e, (Z.abs z = q * 2 ^ e /\ 0 <= q <= 2 ^ 53 /\ 0 <= e
               /\ Z.abs z < 2 ^ 1024)%Z.

(** The decimal numeral of a natural number. *)
Definition numeral (n : nat) : string :=
  DecimalString.NilEmpty.string_of_uint (Nat.to_uint n).



(** LF, FF and CR. *)
Definition isLineBreak (a : ascii) : bool :=
  let n := nat_of_ascii a in
  ((n =? 10) || (n =? 12) || (n =? 13))%nat.

(** An element with the local name [tag], of any namespace, and a plain
    [name] attribute equal to [value]. *)
Definition isTagNamed (tag value : string) (n : Node) : bool :=
  String.eqb (localName (element n)) tag
  && existsb (fun a => opt_eqb (attrNamespaceURI a) None
                       && String.eqb (attrLocalName a) "name"
                       && String.eqb (attrValue a) value)
             (attributes (element n)).

End Terms.

(** Further sample documents. *)
Module MoreSamples.
Import JS DOM xsd Samples.

(** A restriction whose base uses a prefix declared on the schema. *)
Definition derived : Element :=
  xsElem "simpleType" [attr "name" "short"]
    [xsElem "restriction" [attr "base" "t:code"] []].

Definition library : Document :=
  {| rootElement :=
       xsElem "schema" [nsdecl "xs" xs; nsdecl "t" "urn:example:types"]
         [derived] |}.

Definition derivedNode : Node := nodeAt [rootElement library] derived.

(** A simple type whose first restriction has no base. *)
Definition baseless : Node :=
  documentElement
    {| rootElement :=
         xsElem "simpleType" [nsdecl "xs" xs]
           [xsElem "restriction" [] [];
            xsElem "restriction" [attr "base" "xs:string"] []] |}.


End MoreSamples.

(* ================================================================= *)
(** ** Calls on the namespace object

    The operations once more, as calls that run against the namespace
    object [xsd]: a call may read the properties of that object, could
    write them, and may throw.  [xsd.xs] is read where the code reads
    it, once for every child that [find] tests.  The document and the
    nodes are arguments of a call. *)

Module Calls.
Import JS DOM.

(** The data properties of the namespace object. *)
Record Namespace := {
  xs : string;
  xsi : string
}.

(** A call: from the namespace object before it to its outcome and the
    namespace object after it. *)
Definition Call (A : Type) : Type := Namespace -> result A * Namespace.

Definition ret {A : Type} (v : A) : Call A := fun o => (Ok v, o).

Definition throw {A : Type} (e : exn) : Call A := fun o => (Throw e, o).

Definition bind {A B : Type} (c : Call A) (k : A -> Call B) : Call B :=
  fun o =>
    match c o with
    | (Ok v, o') => k v o'
    | (Throw e, o') => (Throw e, o')
    end.

(** Reading [xsd.xs]. *)
Definition readXs : Call string := fun o => (Ok (xs o), o).

(** A DOM call that may throw and touches no property of [xsd]. *)
Definition dom {A : Type} (r : result A) : Call A := fun o => (r, o).

(** [_(list).find(test)], the test being a call. *)
Fixpoint find {A : Type} (test : A -> Call bool) (l : list A)
  : Call (option A) :=
  match l with
  | [] => ret None
  | x :: l' =>
      bind (test x) (fun b => if b then ret (Some x) else find test l')
  end.

Definition findElement (doc : Document) (name : string)
  : Call (option Node) :=
  find (fun child =>
          bind readXs (fun xsdXs =>
          ret (opt_eqb (namespaceURI (element child)) (Some xsdXs)
               && String.eqb (localName (element child)) "element"
               && opt_eqb (getAttribute child "name") (Some name))))
       (children (documentElement doc)).

Definition findTypeDefinition (doc : Document) (type : string)
  : Call (list Node) :=
  let selector :=
    ("complexType[name=" ++ quote) ++ type ++ (quote ++ "],")
    ++ ("simpleType[name=" ++ quote) ++ type ++ (quote ++ "]") in
  dom (querySelectorAll doc selector).

(** This operation reads the node only. *)
Definition getTypeFromNodeAttr (node : Node) (typeAttr : string)
    (typeAttrNS : option string) : Call (option xsd.TypeReference) :=
  ret (xsd.getTypeFromNodeAttr node typeAttr typeAttrNS).

Definition getRestrictedType (node : Node)
  : Call (option xsd.TypeReference) :=
  bind (find (fun child =>
                bind readXs (fun xsdXs =>
                ret (opt_eqb (namespaceURI (element child)) (Some xsdXs)
                     && String.eqb (localName (element child))
                                   "restriction")))
             (children node))
       (fun element_ =>
          match element_ with
          | Some e => getTypeFromNodeAttr e "base" None
          | None => ret None
          end).

Definition findRestrictingFacets (node : Node) : Call (list Node) :=
  bind (find (fun child =>
                bind readXs (fun xsdXs =>
                ret (opt_eqb (namespaceURI (element child)) (Some xsdXs)
                     && String.eqb (localName (element child))
                                   "restriction")))
             (children node))
       (fun element_ =>
          match element_ with
          | Some e => ret (children e)
          | None => throw TypeError
          end).

(** This operation reads the node only. *)
Definition parseMinMaxOccurs (xsdNode : Node) : Call xsd.OccursRange :=
  ret (xsd.parseMinMaxOccurs xsdNode).

(** The namespace object as the module builds it. *)
Definition initial : Namespace :=
  {| xs := xsd.xs; xsi := xsd.xsi |}.

(** A call and the same call again, on the namespace object that the
    first one left: the two outcomes and the namespace object at the
    end. *)
Definition twice {A : Type} (c : Call A) (o : Namespace)
  : result A * result A * Namespace :=
  let '(r1, o1) := c o in
  let '(r2, o2) := c o1 in
  (r1, r2, o2).


(** A call that keeps state between calls, for comparison: it counts in
    a property of the namespace object. *)
Definition counting : Call string :=
  fun o => (Ok (xs o), {| xs := xs o ++ "+"; xsi := xsi o |}).

End Calls.

(* ================================================================= *)
(** ** Properties of the primitives *)

Import JS DOM xsd Spec.

Section Find.
Context {A : Type} (p : A -> bool).

Lemma find_none_forall (l : list A) :
  find p l = None <-> Forall (fun y => p y <> true) l.
Proof.
  induction l as [|a l IH]; simpl.
  - split; auto.
  - destruct (p a) eqn:E.
    + split; [discriminate|].
      intros H. inversion H; subst. congruence.
    + rewrite IH. split; intros H.
      * constructor; [congruence|assumption].
      * now inversion H.
Qed.

Lemma find_some_first (l : list A) (x : A) :
  find p l = Some x -> firstMatch (fun y => p y = true) l x.
Proof.
  induction l as [|a l IH]; simpl; [discriminate|].
  destruct (p a) eqn:E.
  - intros [= <-]. exists [], l. auto.
  - intros H. destruct (IH H) as (l1 & l2 & -> & Hx & Hl1).
    exists (a :: l1), l2. repeat split; auto.
    constructor; [congruence|assumption].
Qed.

Lemma first_find_some (l : list A) (x : A) :
  firstMatch (fun y => p y = true) l x -> find p l = Some x.
Proof.
  intros (l1 & l2 & -> & Hx & Hl1).
  induction Hl1 as [|a l1 Ha _ IH]; simpl.
  - now rewrite Hx.
  - destruct (p a); [congruence|exact IH].
Qed.
End Find.

Lemma firstMatch_ext {A : Type} (P Q : A -> Prop) (l : list A) (x : A) :
  (forall y, P y <-> Q y) -> firstMatch P l x -> firstMatch Q l x.
Proof.
  intros HPQ (l1 & l2 & -> & Hx & Hl1).
  exists l1, l2. repeat split; [now apply HPQ|].
  eapply Forall_impl; [|exact Hl1]. intros y Hy HQ. now apply Hy, HPQ.
Qed.

Lemma opt_eqb_eq (a b : option string) : opt_eqb a b = true <-> a = b.
Proof.
  destruct a as [x|], b as [y|]; simpl; try (split; congruence).
  rewrite String.eqb_eq. split; congruence.
Qed.

Lemma truthy_nonempty (s : string) : truthy s = true <-> s <> "".
Proof. destruct s; simpl; split; congruence. Qed.

(** The test of [findElement] decides [isElementNamed]. *)
Lemma element_test (name : string) (c : Node) :
  elementTest name c = true <-> isElementNamed name c.
Proof.
  unfold elementTest, isElementNamed.
  rewrite !andb_true_iff, !opt_eqb_eq, String.eqb_eq. tauto.
Qed.

(** The test shared by [getRestrictedType] and [findRestrictingFacets]
    decides [isRestriction]. *)
Lemma restriction_test (c : Node) :
  restrictionTest c = true <-> isRestriction c.
Proof.
  unfold restrictionTest, isRestriction.
  rewrite andb_true_iff, opt_eqb_eq, String.eqb_eq. tauto.
Qed.

Lemma children_parent (n c : Node) :
  In c (children n) -> ancestors c = element n :: ancestors n.
Proof.
  unfold children. rewrite in_map_iff. now intros (e & <- & _).
Qed.

(** *** [split] *)

Lemma split_nonempty (c : ascii) (s : string) : split c s <> [].
Proof.
  destruct s as [|a s]; simpl; [discriminate|].
  destruct (Ascii.eqb a c); [discriminate|].
  destruct (split c s); discriminate.
Qed.

Lemma split_head (c : ascii) (s : string) : hd "" (split c s) = upto c s.
Proof.
  induction s as [|a s IH]; simpl; [reflexivity|].
  destruct (Ascii.eqb a c); [reflexivity|].
  destruct (split c s) eqn:E; simpl in *.
  - now apply split_nonempty in E.
  - now rewrite IH.
Qed.

Lemma split_second (c : ascii) (s : string) :
  nth_error (split c s) 1 = option_map (upto c) (after c s).
Proof.
  induction s as [|a s IH]; simpl; [reflexivity|].
  destruct (Ascii.eqb a c).
  - simpl. pose proof (split_head c s) as H.
    destruct (split c s) eqn:E; simpl in *.
    + now apply split_nonempty in E.
    + now rewrite H.
  - destruct (split c s) eqn:E; simpl in *.
    + now apply split_nonempty in E.
    + exact IH.
Qed.

Lemma upto_no_occurrence (c : ascii) (s : string) :
  occurs c s = false -> upto c s = s /\ after c s = None.
Proof.
  induction s as [|a s IH]; simpl; [auto|].
  destruct (Ascii.eqb a c); simpl; [discriminate|].
  intros H. destruct (IH H) as [-> ->]. auto.
Qed.

(** Splitting [p ++ ":" ++ l] at the colon, when [p] has none. *)
Lemma upto_after_join (c : ascii) (p l : string) :
  occurs c p = false ->
  upto c (p ++ String c l) = p /\ after c (p ++ String c l) = Some l.
Proof.
  induction p as [|a p IH]; simpl.
  - rewrite Ascii.eqb_refl. auto.
  - destruct (Ascii.eqb a c); simpl; [discriminate|].
    intros H. destruct (IH H) as [-> ->]. auto.
Qed.

Lemma attributeValue_read (n : Node) (name : string) (ns : option string) :
  match ns with
  | Some u => if truthy u then getAttributeNS n u name
              else getAttribute n name
  | None => getAttribute n name
  end = attributeValue n name ns.
Proof. destruct ns as [[|a u]|]; reflexivity. Qed.

Lemma findElement_find (doc : Document) (name : string) :
  findElement doc name
  = find (elementTest name) (children (documentElement doc)).
Proof. reflexivity. Qed.

(** Either a first [xs:restriction] child exists and [find] returns it,
    or no child is one and [find] returns nothing. *)
Lemma restriction_child_cases (node : Node) :
  (exists r, firstMatch isRestriction (children node) r
             /\ find restrictionTest (children node) = Some r)
  \/ ((forall c, In c (children node) -> ~ isRestriction c)
      /\ find restrictionTest (children node) = None).
Proof.
  destruct (find restrictionTest (children node)) as [r|] eqn:E.
  - left. exists r. split; [|reflexivity].
    apply find_some_first in E.
    eapply firstMatch_ext; [|exact E]. intros y. apply restriction_test.
  - right. split; [|reflexivity].
    apply find_none_forall in E. rewrite Forall_forall in E.
    intros c Hc Hr. now apply (E c Hc), restriction_test.
Qed.

Lemma firstMatch_find_restriction (node r : Node) :
  firstMatch isRestriction (children node) r ->
  find restrictionTest (children node) = Some r.
Proof.
  intros H. apply first_find_some.
  eapply firstMatch_ext; [|exact H].
  intros y. symmetry. apply restriction_test.
Qed.

Lemma no_restriction_find (node : Node) :
  (forall c, In c (children node) -> ~ isRestriction c) ->
  find restrictionTest (children node) = None.
Proof.
  intros H. apply find_none_forall, Forall_forall.
  intros c Hc Ht. now apply (H c Hc), restriction_test.
Qed.

(* ================================================================= *)
(** ** The operations *)

(** C3. [findElement] looks at the children of the root element only: it
    returns the first of them, in document order, that is an
    [xs:element] whose [name] attribute is the given name, and nothing
    when no child is one; what it returns has the root as its parent, so
    a declaration nested deeper is never returned. *)
Theorem findElement_first_root_child (doc : Document) (name : string) :
  (forall r, findElement doc name = Some r
             <-> firstMatch (isElementNamed name)
                            (children (documentElement doc)) r)
  /\ (findElement doc name = None
      <-> forall c, In c (children (documentElement doc))
                    -> ~ isElementNamed name c)
  /\ (forall r, findElement doc name = Some r
                -> In r (children (documentElement doc))
                   /\ ancestors r = [rootElement doc]).
Proof.
  rewrite findElement_find. repeat split.
  - intros H. apply find_some_first in H.
    eapply firstMatch_ext; [|exact H]. intros y. apply element_test.
  - intros H. apply first_find_some.
    eapply firstMatch_ext; [|exact H].
    intros y. symmetry. apply element_test.
  - intros H c Hc Hn. apply find_none_forall in H.
    rewrite Forall_forall in H. now apply (H c Hc), element_test.
  - intros H. apply find_none_forall, Forall_forall.
    intros c Hc Ht. now apply (H c Hc), element_test.
  - now apply find_some in H.
  - apply find_some in H. destruct H as [H _].
    now apply children_parent in H.
Qed.

Example findElement_top_level :
  option_map (fun r => getAttribute r "type")
             (findElement Samples.schema "item")
  = Some (Some "xs:string").
Proof. reflexivity. Qed.

(** The declaration [line] sits inside a complex type: the document has
    it, and [findElement] does not return it. *)
Example findElement_skips_nested :
  (exists n, In n (elements Samples.schema) /\ isElementNamed "line" n)
  /\ findElement Samples.schema "line" = None.
Proof.
  split; [|reflexivity].
  exists (nth 4 (elements Samples.schema) Samples.schemaNode).
  split; [|repeat split]. do 4 right. left. reflexivity.
Qed.

(** C5. Without an [xs:restriction] child [getRestrictedType] returns
    null; with one, it returns what [getTypeFromNodeAttr] returns for the
    first such child and its [base] attribute. *)
Theorem getRestrictedType_first_restriction (node : Node) :
  ((forall c, In c (children node) -> ~ isRestriction c)
   -> getRestrictedType node = None)
  /\ (forall r, firstMatch isRestriction (children node) r
                -> getRestrictedType node
                   = getTypeFromNodeAttr r "base" None).
Proof.
  unfold getRestrictedType.
  change (find _ (children node))
    with (find restrictionTest (children node)).
  split.
  - intros H. now rewrite (no_restriction_find _ H).
  - intros r H. now rewrite (firstMatch_find_restriction _ _ H).
Qed.

(** C6. With an [xs:restriction] child [findRestrictingFacets] returns
    all the children of the first such child, in document order; without
    one it throws. *)
Theorem findRestrictingFacets_children_or_throw (node : Node) :
  (forall r, firstMatch isRestriction (children node) r
             -> findRestrictingFacets node = Ok (children r))
  /\ ((forall c, In c (children node) -> ~ isRestriction c)
      -> findRestrictingFacets node = Throw TypeError).
Proof.
  unfold findRestrictingFacets.
  change (find _ (children node))
    with (find restrictionTest (children node)).
  split.
  - intros r H. now rewrite (firstMatch_find_restriction _ _ H).
  - intros H. now rewrite (no_restriction_find _ H).
Qed.

(** C9. Where [getRestrictedType] returns a value other than null,
    [findRestrictingFacets] does not throw, and both work on the same
    element: the first [xs:restriction] child of the node. *)
Theorem restricted_type_guards_facets (node : Node) :
  getRestrictedType node <> None ->
  exists r,
    firstMatch isRestriction (children node) r
    /\ getRestrictedType node = getTypeFromNodeAttr r "base" None
    /\ findRestrictingFacets node = Ok (children r).
Proof.
  intros Hsome.
  destruct (restriction_child_cases node) as [(r & Hr & E)|[_ E]].
  - exists r. unfold getRestrictedType, findRestrictingFacets.
    change (find _ (children node))
      with (find restrictionTest (children node)).
    rewrite E. auto.
  - exfalso. apply Hsome. unfold getRestrictedType.
    change (find _ (children node))
      with (find restrictionTest (children node)).
    now rewrite E.
Qed.

Lemma restricted_type_guards_facets_witness :
  exists r,
    firstMatch isRestriction (children Samples.codeNode) r
    /\ getRestrictedType Samples.codeNode
       = getTypeFromNodeAttr r "base" None
    /\ findRestrictingFacets Samples.codeNode = Ok (children r).
Proof.
  apply (restricted_type_guards_facets Samples.codeNode).
  vm_compute. discriminate.
Defined.

(** *** Namespace lookup *)

(** A prefix declared on the element itself resolves to the declared
    URI, unless the element's own name already binds the prefix. *)
Lemma lookupNamespaceURI_declared (n : Node) (p : string) (a : Attr) :
  p <> "" -> p <> "xml" -> p <> "xmlns" ->
  prefix (element n) <> Some p ->
  find (declares (Some p)) (attributes (element n)) = Some a ->
  attrValue a <> "" ->
  lookupNamespaceURI n p = Some (attrValue a).
Proof.
  intros Hp Hxml Hxmlns Hown Hfind Hval.
  unfold lookupNamespaceURI. apply truthy_nonempty in Hp. rewrite Hp.
  cbn [locateNamespace opt_eqb].
  apply String.eqb_neq in Hxml, Hxmlns. rewrite Hxml, Hxmlns, Hfind.
  apply truthy_nonempty in Hval. rewrite Hval.
  destruct (namespaceURI (element n)); [|reflexivity].
  destruct (opt_eqb (prefix (element n)) (Some p)) eqn:E; [|reflexivity].
  now apply opt_eqb_eq in E.
Qed.

(** Declarations are scoped by the tree: a prefix that a child neither
    binds by its own name nor declares resolves as at its parent. *)
Lemma lookupNamespaceURI_inherited (n c : Node) (p : string) :
  In c (children n) ->
  prefix (element c) <> (if truthy p then Some p else None) ->
  find (declares (if truthy p then Some p else None))
       (attributes (element c)) = None ->
  lookupNamespaceURI c p = lookupNamespaceURI n p.
Proof.
  intros Hc Hown Hfind. unfold lookupNamespaceURI.
  rewrite (children_parent _ _ Hc).
  set (pfx := if truthy p then Some p else None) in *.
  change (locateNamespace (element c :: element n :: ancestors n) pfx)
    with (if opt_eqb pfx (Some "xml") then Some xmlNamespace
          else if opt_eqb pfx (Some "xmlns") then Some xmlnsNamespace
          else if match namespaceURI (element c) with
                  | Some _ => opt_eqb (prefix (element c)) pfx
                  | None => false
                  end
          then namespaceURI (element c)
          else match find (declares pfx) (attributes (element c)) with
               | Some a => if truthy (attrValue a) then Some (attrValue a)
                           else None
               | None => locateNamespace (element n :: ancestors n) pfx
               end).
  rewrite Hfind.
  assert (Hno : match namespaceURI (element c) with
                | Some _ => opt_eqb (prefix (element c)) pfx
                | None => false
                end = false).
  { destruct (namespaceURI (element c)); [|reflexivity].
    destruct (opt_eqb (prefix (element c)) pfx) eqn:E; [|reflexivity].
    now apply opt_eqb_eq in E. }
  rewrite Hno. cbn [locateNamespace].
  destruct (opt_eqb pfx (Some "xml")); [reflexivity|].
  destruct (opt_eqb pfx (Some "xmlns")); reflexivity.
Qed.

Example lookupNamespaceURI_xs :
  In Samples.itemNode (children Samples.schemaNode)
  /\ lookupNamespaceURI Samples.itemNode "xs" = Some xs.
Proof. split; [left|]; reflexivity. Qed.

(** *** [getTypeFromNodeAttr] *)

Lemma getTypeFromNodeAttr_absent (node : Node) (typeAttr : string)
    (typeAttrNS : option string) :
  attributeValue node typeAttr typeAttrNS = None
  \/ attributeValue node typeAttr typeAttrNS = Some "" ->
  getTypeFromNodeAttr node typeAttr typeAttrNS = None.
Proof.
  unfold getTypeFromNodeAttr. rewrite attributeValue_read.
  now intros [-> | ->].
Qed.

Lemma getTypeFromNodeAttr_value (node : Node) (typeAttr : string)
    (typeAttrNS : option string) (v : string) :
  attributeValue node typeAttr typeAttrNS = Some v -> v <> "" ->
  getTypeFromNodeAttr node typeAttr typeAttrNS
  = Some {| typeNamespaceURI := lookupNamespaceURI node (upto ":" v);
            typeName := option_map (upto ":") (after ":" v) |}.
Proof.
  intros Hv Hne. unfold getTypeFromNodeAttr.
  rewrite attributeValue_read, Hv.
  apply truthy_nonempty in Hne. rewrite Hne.
  now rewrite split_head, split_second.
Qed.

(** C2, as the code has it.  An absent or empty attribute gives null.
    Otherwise the value is cut at every colon: the namespace URI is the
    one the node resolves for the text before the first colon, and the
    name is the text between the first colon and the second one (all the
    text after the first colon when there is no second one, and no name
    when there is no colon). *)
Theorem getTypeFromNodeAttr_resolves (node : Node) (typeAttr : string)
    (typeAttrNS : option string) :
  (attributeValue node typeAttr typeAttrNS = None
   \/ attributeValue node typeAttr typeAttrNS = Some ""
   -> getTypeFromNodeAttr node typeAttr typeAttrNS = None)
  /\ (forall v,
        attributeValue node typeAttr typeAttrNS = Some v -> v <> "" ->
        getTypeFromNodeAttr node typeAttr typeAttrNS
        = Some {| typeNamespaceURI :=
                    lookupNamespaceURI node (upto ":" v);
                  typeName := option_map (upto ":") (after ":" v) |})
  /\ (forall p l,
        attributeValue node typeAttr typeAttrNS = Some (p ++ ":" ++ l) ->
        occurs ":" p = false -> occurs ":" l = false ->
        getTypeFromNodeAttr node typeAttr typeAttrNS
        = Some {| typeNamespaceURI := lookupNamespaceURI node p;
                  typeName := Some l |}).
Proof.
  split; [apply getTypeFromNodeAttr_absent|].
  split; [intros v; apply getTypeFromNodeAttr_value|].
  intros p l Hv Hp Hl.
  rewrite (getTypeFromNodeAttr_value _ _ _ _ Hv).
  - simpl. destruct (upto_after_join ":" p l Hp) as [-> ->]. simpl.
    now destruct (upto_no_occurrence ":" l Hl) as [-> _].
  - destruct p; discriminate.
Qed.

Example getTypeFromNodeAttr_xs_string :
  getAttribute Samples.itemNode "type" = Some "xs:string"
  /\ getTypeFromNodeAttr Samples.itemNode "type" None
     = Some {| typeNamespaceURI := Some xs; typeName := Some "string" |}.
Proof. split; reflexivity. Qed.

(** C2, as stated, fails on a value with two colons: the name returned
    for [a:b:c] is [b], not the text [b:c] that follows the first
    colon. *)
Lemma getTypeFromNodeAttr_two_colons :
  attributeValue (Samples.holder "type" "a:b:c") "type" None
  = Some "a:b:c"
  /\ after ":" "a:b:c" = Some "b:c"
  /\ option_map typeName
       (getTypeFromNodeAttr (Samples.holder "type" "a:b:c") "type" None)
     = Some (Some "b")
  /\ Some "b" <> after ":" "a:b:c".
Proof. repeat split. discriminate. Qed.

(** C7. An attribute value without a colon (a value that is there, the
    absent and the empty attribute giving null before any splitting)
    gives a type reference with no name, whose namespace URI is the one
    the node resolves for the whole value taken as a prefix. *)
Theorem getTypeFromNodeAttr_no_colon (node : Node) (typeAttr : string)
    (typeAttrNS : option string) (v : string) :
  attributeValue node typeAttr typeAttrNS = Some v ->
  v <> "" ->
  occurs ":" v = false ->
  getTypeFromNodeAttr node typeAttr typeAttrNS
  = Some {| typeNamespaceURI := lookupNamespaceURI node v;
            typeName := None |}.
Proof.
  intros Hv Hne Hc.
  rewrite (getTypeFromNodeAttr_value _ _ _ _ Hv Hne).
  now destruct (upto_no_occurrence ":" v Hc) as [-> ->].
Qed.

Lemma getTypeFromNodeAttr_no_colon_witness :
  getTypeFromNodeAttr (Samples.holder "type" "string") "type" None
  = Some {| typeNamespaceURI :=
              lookupNamespaceURI (Samples.holder "type" "string") "string";
            typeName := None |}.
Proof.
  apply (getTypeFromNodeAttr_no_colon _ "type" None "string").
  - reflexivity.
  - discriminate.
  - reflexivity.
Defined.

(** The empty value is no value to split: the result is null. *)
Example getTypeFromNodeAttr_empty_is_null :
  attributeValue (Samples.holder "type" "") "type" None = Some ""
  /\ getTypeFromNodeAttr (Samples.holder "type" "") "type" None = None.
Proof. split; reflexivity. Qed.

(** *** [parseInt] *)

Lemma digit_not_space (d : ascii) :
  isDigit d = true ->
  isWhiteSpace d = false
  /\ Ascii.eqb d "+" = false /\ Ascii.eqb d "-" = false.
Proof.
  destruct d as [[] [] [] [] [] [] [] []];
    (discriminate || (intros _; repeat split)).
Qed.

Lemma trimStart_white (ws t : string) :
  forallb_string isWhiteSpace ws = true ->
  trimStart (ws ++ t) = trimStart t.
Proof.
  induction ws as [|a ws IH]; simpl; [reflexivity|].
  intros H. apply andb_true_iff in H as [-> H]. auto.
Qed.

Lemma trimStart_split (s : string) :
  exists ws, s = ws ++ trimStart s
             /\ forallb_string isWhiteSpace ws = true.
Proof.
  induction s as [|a s (ws & IH & Hws)]; simpl.
  - now exists "".
  - destruct (isWhiteSpace a) eqn:E.
    + exists (String a ws). simpl. rewrite E, Hws.
      split; [f_equal; exact IH | reflexivity].
    + now exists "".
Qed.

Lemma toNumber_not_NaN (sign m : Z) : toNumber sign m <> NaN.
Proof.
  unfold toNumber. destruct (m =? 0)%Z.
  - destruct (sign =? -1)%Z; discriminate.
  - destruct (roundToDouble m); [discriminate|].
    destruct (sign =? -1)%Z; discriminate.
Qed.

(** [parseInt] yields a value other than [NaN] exactly on text that
    starts, after white space and a sign, with a digit. *)
Lemma parseInt10_number_iff (s : string) :
  parseInt10 s <> NaN <-> integerPrefixed s.
Proof.
  split.
  - intros Hz. destruct (trimStart_split s) as (ws & Hs & Hws).
    unfold parseInt10 in Hz.
    destruct (trimStart s) as [|a t] eqn:Et; [congruence|].
    destruct (Ascii.eqb a "+" || Ascii.eqb a "-") eqn:Esign.
    + destruct t as [|d rest]; [congruence|].
      destruct (isDigit d) eqn:Ed; [|congruence].
      exists ws, (String a ""), d, rest. repeat split; auto.
      apply orb_true_iff in Esign as [E|E];
        apply Ascii.eqb_eq in E; subst; auto.
    + destruct (isDigit a) eqn:Ed; [|congruence].
      exists ws, "", a, t. repeat split; auto.
  - intros (ws & sg & d & rest & -> & Hws & Hsg & Hd).
    destruct (digit_not_space d Hd) as (Hw & Hplus & Hminus).
    unfold parseInt10. rewrite (trimStart_white _ _ Hws).
    destruct Hsg as [-> | [-> | ->]]; simpl.
    + rewrite Hw, Hplus, Hminus. simpl. rewrite Hd.
      apply toNumber_not_NaN.
    + rewrite Hd. apply toNumber_not_NaN.
    + rewrite Hd. apply toNumber_not_NaN.
Qed.

Lemma parseInt10_NaN_iff (s : string) :
  parseInt10 s = NaN <-> ~ integerPrefixed s.
Proof.
  rewrite <- parseInt10_number_iff. split.
  - intros H Hn. exact (Hn H).
  - intros H. destruct (parseInt10 s); try reflexivity;
      exfalso; apply H; discriminate.
Qed.

Lemma readDigits_value (s : string) (acc : Z) :
  forallb_string isDigit s = true ->
  readDigits acc s
  = (acc * 10 ^ Z.of_nat (String.length s) + decimalValue s)%Z.
Proof.
  revert acc. induction s as [|a s IH]; intros acc; simpl length.
  - intros _. simpl. lia.
  - intros H. simpl in H. apply andb_true_iff in H as [Ha Hs].
    cbn [readDigits decimalValue]. rewrite Ha, (IH _ Hs).
    rewrite Nat2Z.inj_succ, Z.pow_succ_r by lia. ring.
Qed.

(** Below 2^53 an integer is its own double. *)
Lemma toNumber_exact (m : Z) :
  (m < 2 ^ 53)%Z ->
  toNumber 1 m = Num m
  /\ (m <> 0%Z -> toNumber (-1) m = Num (- m)).
Proof.
  intros Hm. unfold toNumber, roundToDouble.
  apply Z.ltb_lt in Hm. rewrite Hm.
  destruct (m =? 0)%Z eqn:E.
  - apply Z.eqb_eq in E. subst m. split; [reflexivity | congruence].
  - split; intros; cbn [Z.eqb]; f_equal; lia.
Qed.

(** On the text of an unsigned decimal numeral below 2^53 [parseInt]
    returns the integer it writes; with a minus sign in front of a
    numeral other than zero, its opposite. *)
Lemma parseInt10_numeral (s : string) :
  s <> "" -> forallb_string isDigit s = true ->
  (decimalValue s < 2 ^ 53)%Z ->
  parseInt10 s = Num (decimalValue s)
  /\ (decimalValue s <> 0%Z
      -> parseInt10 (String "-" s) = Num (- decimalValue s)).
Proof.
  intros Hne Hs Hb. destruct s as [|d r]; [congruence|].
  pose proof Hs as Hall. simpl in Hs. apply andb_true_iff in Hs as [Hd _].
  destruct (digit_not_space d Hd) as (Hw & Hplus & Hminus).
  pose proof (readDigits_value _ 0 Hall) as Hread.
  rewrite Z.mul_0_l, Z.add_0_l in Hread.
  destruct (toNumber_exact _ Hb) as [Hpos Hneg].
  unfold parseInt10. cbn [trimStart]. rewrite Hw.
  replace (isWhiteSpace "-") with false by reflexivity.
  rewrite Hplus, Hminus. cbn [orb Ascii.eqb Bool.eqb]. rewrite Hd, Hread.
  split; [exact Hpos | exact Hneg].
Qed.

(** *** [parseMinMaxOccurs] *)

Lemma parseMinMaxOccurs_min (n : Node) (s : string) :
  getAttribute n "minOccurs" = Some s -> s <> "" ->
  min (parseMinMaxOccurs n) = parseInt10 s.
Proof.
  intros Hs Hne. unfold parseMinMaxOccurs. cbn [min]. rewrite Hs.
  apply String.eqb_neq in Hne. now rewrite Hne.
Qed.

Lemma parseMinMaxOccurs_max (n : Node) (s : string) :
  getAttribute n "maxOccurs" = Some s -> s <> "" -> s <> "unbounded" ->
  max (parseMinMaxOccurs n) = parseInt10 s.
Proof.
  intros Hs Hne Hun. unfold parseMinMaxOccurs. cbn [max]. rewrite Hs.
  apply String.eqb_neq in Hne, Hun. now rewrite Hne, Hun.
Qed.

(** C1. [min] is 1 when [minOccurs] is absent or empty and the attribute
    text read by [parseInt] in base 10 otherwise; [max] is 1 when
    [maxOccurs] is absent or empty, [Infinity] when it is the text
    [unbounded], and the text read by [parseInt] in base 10 otherwise.
    On the text of a decimal numeral below 2^53 the field is the integer
    that the numeral writes. *)
Theorem parseMinMaxOccurs_reads_attributes (n : Node) :
  (getAttribute n "minOccurs" = None
   \/ getAttribute n "minOccurs" = Some ""
   -> min (parseMinMaxOccurs n) = Num 1)
  /\ (forall s, getAttribute n "minOccurs" = Some s -> s <> ""
                -> min (parseMinMaxOccurs n) = parseInt10 s)
  /\ (getAttribute n "maxOccurs" = None
      \/ getAttribute n "maxOccurs" = Some ""
      -> max (parseMinMaxOccurs n) = Num 1)
  /\ (getAttribute n "maxOccurs" = Some "unbounded"
      -> max (parseMinMaxOccurs n) = Infinity)
  /\ (forall s, getAttribute n "maxOccurs" = Some s
                -> s <> "" -> s <> "unbounded"
                -> max (parseMinMaxOccurs n) = parseInt10 s)
  /\ (forall s, s <> "" -> forallb_string isDigit s = true ->
        (decimalValue s < 2 ^ 53)%Z ->
        (getAttribute n "minOccurs" = Some s
         -> min (parseMinMaxOccurs n) = Num (decimalValue s))
        /\ (getAttribute n "maxOccurs" = Some s
            -> max (parseMinMaxOccurs n) = Num (decimalValue s))).
Proof.
  split; [|split; [|split; [|split; [|split]]]].
  - unfold parseMinMaxOccurs. cbn [min]. now intros [-> | ->].
  - apply parseMinMaxOccurs_min.
  - unfold parseMinMaxOccurs. cbn [max]. now intros [-> | ->].
  - unfold parseMinMaxOccurs. cbn [max]. now intros ->.
  - apply parseMinMaxOccurs_max.
  - intros s Hne Hdigits Hbound.
    destruct (parseInt10_numeral s Hne Hdigits Hbound) as [Hp _].
    split; intros Hs.
    + now rewrite (parseMinMaxOccurs_min _ _ Hs Hne).
    + rewrite (parseMinMaxOccurs_max _ _ Hs Hne); [exact Hp|].
      intros ->. discriminate.
Qed.

Example parseMinMaxOccurs_defaults :
  parseMinMaxOccurs Samples.orderNode = {| min := Num 1; max := Num 1 |}.
Proof. reflexivity. Qed.

Example parseMinMaxOccurs_zero_to_five :
  getAttribute Samples.itemNode "minOccurs" = Some "0"
  /\ getAttribute Samples.itemNode "maxOccurs" = Some "5"
  /\ parseMinMaxOccurs Samples.itemNode = {| min := Num 0; max := Num 5 |}.
Proof. repeat split. Qed.

Example parseMinMaxOccurs_unbounded :
  max (parseMinMaxOccurs (Samples.holder "maxOccurs" "unbounded"))
  = Infinity.
Proof. reflexivity. Qed.

(** C8, as the code has it.  The function is total: it returns a range
    for every node.  For a non-empty [minOccurs] text, and for a
    non-empty [maxOccurs] text other than [unbounded], the field is
    [NaN] exactly when the text does not start, after white space and an
    optional sign, with a decimal digit; on text that does, the field
    is not [NaN]. *)
Theorem parseMinMaxOccurs_nan (n : Node) :
  (forall s, getAttribute n "minOccurs" = Some s -> s <> "" ->
     (min (parseMinMaxOccurs n) = NaN <-> ~ integerPrefixed s)
     /\ (integerPrefixed s -> min (parseMinMaxOccurs n) <> NaN))
  /\ (forall s, getAttribute n "maxOccurs" = Some s ->
        s <> "" -> s <> "unbounded" ->
        (max (parseMinMaxOccurs n) = NaN <-> ~ integerPrefixed s)
        /\ (integerPrefixed s -> max (parseMinMaxOccurs n) <> NaN)).
Proof.
  split.
  - intros s Hs Hne. rewrite (parseMinMaxOccurs_min _ _ Hs Hne).
    split; [apply parseInt10_NaN_iff | apply parseInt10_number_iff].
  - intros s Hs Hne Hun. rewrite (parseMinMaxOccurs_max _ _ Hs Hne Hun).
    split; [apply parseInt10_NaN_iff | apply parseInt10_number_iff].
Qed.

(** C8, as stated, fails on text that starts with digits and goes on
    with something else: [5abc] is not the text of an integer, and the
    field is 5, not [NaN]. *)
Lemma parseMinMaxOccurs_digits_then_text :
  getAttribute (Samples.holder "minOccurs" "5abc") "minOccurs"
  = Some "5abc"
  /\ isIntegerText "5abc" = false
  /\ min (parseMinMaxOccurs (Samples.holder "minOccurs" "5abc")) = Num 5
  /\ Num 5 <> NaN.
Proof. repeat split. discriminate. Qed.

(** *** The selector automaton *)

Lemma run_app (s1 s2 : string) (st : ParseState) :
  run st (s1 ++ s2) = run (run st s1) s2.
Proof.
  revert st. induction s1 as [|a s1 IH]; intros st; simpl; auto.
Qed.

Lemma append_empty (v : string) : v ++ "" = v.
Proof. induction v as [|b v IH]; simpl; [reflexivity | now rewrite IH]. Qed.

Lemma append_append (u v w : string) : (u ++ v) ++ w = u ++ v ++ w.
Proof. induction u as [|b u IH]; simpl; [reflexivity | now rewrite IH]. Qed.

Lemma append_snoc (v : string) (a : ascii) (t : string) :
  snoc v a ++ t = v ++ String a t.
Proof. unfold snoc. now rewrite append_append. Qed.

Lemma plain_not_quote (a : ascii) :
  isStringSpecial a = false -> Ascii.eqb a dquote = false.
Proof.
  destruct (Ascii.eqb a dquote) eqn:E; [|reflexivity].
  apply Ascii.eqb_eq in E. subst a. discriminate.
Qed.

(** Inside the quotes, safe text is read as it stands. *)
Lemma run_value (type : string) (done : list Compound) (ty an v : string) :
  selectorSafe type ->
  run (InValue done ty an v) type = InValue done ty an (v ++ type).
Proof.
  unfold selectorSafe. revert v.
  induction type as [|a t IH]; intros v H; simpl.
  - now rewrite append_empty.
  - simpl in H. apply andb_true_iff in H as [Ha Ht].
    apply negb_true_iff in Ha.
    rewrite (plain_not_quote a Ha), Ha, (IH _ Ht).
    now rewrite append_snoc.
Qed.

(** One compound selector of the text that [findTypeDefinition] builds,
    from its tag name to its closing bracket. *)
Lemma run_compound (tag type tail : string) (done : list Compound) :
  selectorSafe type ->
  run (InType done "") (tag ++ "[name=") = AtQuote done tag "name" ->
  run (InType done "")
      ((tag ++ "[name=" ++ quote) ++ type ++ (quote ++ String "]" tail))
  = run (AtEnd (done ++ [{| selType := tag; selAttr := "name";
                            selValue := type |}])) tail.
Proof.
  intros Hsafe Htag.
  rewrite (run_app (tag ++ "[name=" ++ quote)).
  rewrite <- (append_append tag "[name=" quote).
  rewrite (run_app (tag ++ "[name=")), Htag.
  cbn [quote run step]. rewrite Ascii.eqb_refl.
  rewrite (run_app type), (run_value _ _ _ _ _ Hsafe).
  cbn [quote append run step]. now rewrite !Ascii.eqb_refl.
Qed.

Lemma parseSelector_type (type : string) :
  selectorSafe type ->
  parseSelector
    (("complexType[name=" ++ quote) ++ type ++ (quote ++ "],")
     ++ ("simpleType[name=" ++ quote) ++ type ++ (quote ++ "]"))
  = Some [ {| selType := "complexType"; selAttr := "name";
              selValue := type |};
           {| selType := "simpleType"; selAttr := "name";
              selValue := type |} ].
Proof.
  intros Hsafe. unfold parseSelector.
  replace (("complexType[name=" ++ quote) ++ type ++ (quote ++ "],")
           ++ ("simpleType[name=" ++ quote) ++ type ++ (quote ++ "]"))
    with (("complexType" ++ "[name=" ++ quote) ++ type
          ++ (quote ++ String "]"
                (String ","
                   (("simpleType" ++ "[name=" ++ quote) ++ type
                    ++ (quote ++ String "]" ""))))).
  2:{ now rewrite !append_append. }
  rewrite (run_compound "complexType" type _ [] Hsafe) by reflexivity.
  cbn [run step app]. rewrite Ascii.eqb_refl.
  rewrite (run_compound "simpleType" type "" _ Hsafe) by reflexivity.
  reflexivity.
Qed.

Lemma matches_type_definition (type : string) (n : Node) :
  existsb (matchesCompound n)
    [ {| selType := "complexType"; selAttr := "name"; selValue := type |};
      {| selType := "simpleType"; selAttr := "name"; selValue := type |} ]
  = isTypeDefinitionNamed type n.
Proof.
  unfold isTypeDefinitionNamed, matchesCompound. cbn [existsb selType
    selAttr selValue].
  destruct (String.eqb (localName (element n)) "complexType"),
           (String.eqb (localName (element n)) "simpleType");
    cbn [andb orb]; rewrite ?orb_false_r, ?orb_diag; reflexivity.
Qed.

(** *** Document order *)

Lemma subtree_root (up : list Element) (e : Element) :
  In {| element := e; ancestors := up |} (subtree up e).
Proof. destruct e; simpl; auto. Qed.

(** The enumeration of a subtree is closed under [children]. *)
Lemma subtree_children :
  forall (e : Element) (up : list Element) (n c : Node),
    In n (subtree up e) -> In c (children n) -> In c (subtree up e).
Proof.
  fix IH 1. intros e up n c Hn Hc.
  destruct e as [ns pf ln attrs kids]. cbn [subtree] in Hn |- *.
  cbn [childElements] in Hn |- *.
  destruct Hn as [<- | Hn].
  - right. unfold children in Hc. cbn [element ancestors childElements] in Hc.
    apply in_map_iff in Hc as (k & <- & Hk).
    apply in_flat_map. exists k. split; [exact Hk | apply subtree_root].
  - right.
    set (e := {| namespaceURI := ns; prefix := pf; localName := ln;
                 attributes := attrs; childElements := kids |}) in *.
    clearbody e. revert Hn.
    induction kids as [|k ks IHks]; cbn [flat_map]; [tauto|].
    rewrite !in_app_iff. intros [Hn | Hn].
    + left. exact (IH k (e :: up) n c Hn Hc).
    + right. exact (IHks Hn).
Qed.

Lemma elements_root (doc : Document) :
  In (documentElement doc) (elements doc).
Proof. apply subtree_root. Qed.

Lemma elements_children (doc : Document) (n c : Node) :
  In n (elements doc) -> In c (children n) -> In c (elements doc).
Proof. apply subtree_children. Qed.

(** *** [findTypeDefinition] *)

(** C4, as the code has it.  For a type name that can stand unescaped
    between double quotes, [findTypeDefinition] returns all the elements
    of the document, in document order, whose local name is
    [complexType] or [simpleType], whatever their namespace, and that
    have a plain [name] attribute equal to the type name; the sequence
    is empty when there is none and holds every one of several. *)
Theorem findTypeDefinition_selects (doc : Document) (type : string) :
  selectorSafe type ->
  findTypeDefinition doc type
  = Ok (filter (isTypeDefinitionNamed type) (elements doc)).
Proof.
  intros Hsafe. unfold findTypeDefinition, querySelectorAll.
  rewrite (parseSelector_type type Hsafe). f_equal.
  apply filter_ext. intros n. apply matches_type_definition.
Qed.

Lemma findTypeDefinition_selects_witness :
  findTypeDefinition Samples.schema "order"
  = Ok (filter (isTypeDefinitionNamed "order") (elements Samples.schema)).
Proof.
  apply (findTypeDefinition_selects Samples.schema "order").
  reflexivity.
Defined.

Example findTypeDefinition_no_match :
  findTypeDefinition Samples.schema "missing" = Ok [].
Proof. reflexivity. Qed.

Example findTypeDefinition_ambiguous :
  match findTypeDefinition Samples.ambiguous "t" with
  | Ok l => map (fun n => localName (element n)) l
  | Throw _ => []
  end = ["simpleType"; "complexType"].
Proof. reflexivity. Qed.

(** C4, as stated, fails twice.  An element [complexType] of another
    namespace with the name asked for is returned although it is not in
    the XML Schema namespace; and for a type name made of one double
    quote the call throws instead of returning a sequence. *)
Lemma findTypeDefinition_other_namespace :
  (exists n,
     findTypeDefinition Samples.mixed "order" = Ok [n]
     /\ localName (element n) = "complexType"
     /\ namespaceURI (element n) = Some "urn:example:other"
     /\ namespaceURI (element n) <> Some xs)
  /\ findTypeDefinition Samples.mixed quote = Throw SyntaxError.
Proof.
  split; [|reflexivity].
  eexists. repeat split. discriminate.
Qed.

(** *** Determinism *)

Section ReadOnly.
Import Calls.










(** With the namespace object as the module builds it, a call computes
    what the operation of the same name computes. *)
Lemma find_refines {A : Type} (test : A -> Call bool) (p : A -> bool)
    (o : Namespace) (l : list A) :
  (forall x, test x o = (Ok (p x), o)) ->
  Calls.find test l o = (Ok (List.find p l), o).
Proof.
  intros Htest. induction l as [|x l IH]; cbn [Calls.find List.find].
  - reflexivity.
  - unfold bind. rewrite Htest. destruct (p x); [reflexivity | exact IH].
Qed.

Lemma calls_refine (o : Namespace) (doc : Document) (node : Node)
    (name : string) :
  Calls.xs o = xsd.xs ->
  Calls.findElement doc name o = (Ok (xsd.findElement doc name), o)
  /\ Calls.findTypeDefinition doc name o = (xsd.findTypeDefinition doc name, o)
  /\ Calls.getRestrictedType node o = (Ok (xsd.getRestrictedType node), o)
  /\ Calls.findRestrictingFacets node o = (xsd.findRestrictingFacets node, o).
Proof.
  intros Hxs.
  assert (Hfind :
    Calls.find
      (fun child =>
         bind readXs (fun xsdXs =>
         ret (opt_eqb (namespaceURI (element child)) (Some xsdXs)
              && String.eqb (localName (element child)) "restriction")))
      (children node) o
    = (Ok (List.find restrictionTest (children node)), o)).
  { apply find_refines. intros child.
    unfold bind, readXs, ret. now rewrite Hxs. }
  repeat split.
  - unfold Calls.findElement. apply find_refines. intros child.
    unfold bind, readXs, ret. now rewrite Hxs.
  - unfold Calls.getRestrictedType, xsd.getRestrictedType.
    change (List.find _ (children node))
      with (List.find restrictionTest (children node)).
    unfold bind at 1. rewrite Hfind.
    now destruct (List.find restrictionTest (children node)).
  - unfold Calls.findRestrictingFacets, xsd.findRestrictingFacets.
    change (List.find _ (children node))
      with (List.find restrictionTest (children node)).
    unfold bind at 1. rewrite Hfind.
    now destruct (List.find restrictionTest (children node)).
Qed.

End ReadOnly.


(** A call that counts in the namespace object is not of that kind: made
    again, it has another outcome. *)
Example counting_is_not_reproducible :
  exists r1 r2 o,
    Calls.twice Calls.counting Calls.initial = (r1, r2, o)
    /\ r1 = Ok xs /\ r2 = Ok (xs ++ "+") /\ o <> Calls.initial.
Proof.
  do 3 eexists. split; [reflexivity|]. repeat split. discriminate.
Qed.

(** The result does depend on the document: after a renaming the same
    call finds nothing. *)
Example findElement_depends_on_document :
  findElement Samples.schema "item" <> None
  /\ findElement Samples.renamed "item" = None.
Proof. split; [discriminate | reflexivity]. Qed.

(* ================================================================= *)
(** ** Further properties *)

Import Terms.

(** *** Occurrence bounds *)







Lemma digitValue_bound (a : ascii) :
  isDigit a = true -> (0 <= digitValue a <= 9)%Z.
Proof.
  destruct a as [[] [] [] [] [] [] [] []];
    (discriminate || (intros _; vm_compute; split; discriminate)).
Qed.

Lemma readDigits_bound (s : string) (acc : Z) :
  (0 <= acc)%Z ->
  (0 <= readDigits acc s < (acc + 1) * 10 ^ Z.of_nat (String.length s))%Z.
Proof.
  revert acc. induction s as [|a s IH]; intros acc Hacc.
  - cbn [readDigits String.length Z.of_nat Z.pow]. lia.
  - cbn [readDigits String.length].
    rewrite Nat2Z.inj_succ, Z.pow_succ_r by lia.
    assert (Hpow : (0 < 10 ^ Z.of_nat (String.length s))%Z)
      by (apply Z.pow_pos_nonneg; lia).
    destruct (isDigit a) eqn:Ea.
    + pose proof (digitValue_bound a Ea) as Hd.
      destruct (IH (10 * acc + digitValue a)%Z ltac:(lia)) as [H0 H1].
      split; [exact H0|]. nia.
    + nia.
Qed.

Lemma trimStart_length (s : string) :
  (String.length (trimStart s) <= String.length s)%nat.
Proof.
  induction s as [|a s IH]; simpl; [lia|].
  destruct (isWhiteSpace a); simpl; lia.
Qed.

(** An integer below 10^308 does not pass the largest double. *)
Lemma roundToDouble_finite (m : Z) :
  (0 < m < 10 ^ 308)%Z -> roundToDouble m <> None.
Proof.
  intros [Hpos Hlt]. unfold roundToDouble.
  destruct (m <? 2 ^ 53)%Z eqn:Esmall; [discriminate|].
  apply Z.ltb_ge in Esmall.
  set (L := Z.log2 m).
  assert (HL : (2 ^ L <= m < 2 ^ (L + 1))%Z).
  { pose proof (Z.log2_spec m Hpos) as H. unfold L.
    rewrite <- Z.add_1_r in H. exact H. }
  assert (HL53 : (53 <= L)%Z) by (apply Z.log2_le_pow2; lia).
  assert (HL1023 : (L <= 1023)%Z).
  { assert (L < 1024)%Z; [|lia].
    apply Z.log2_lt_pow2; [lia|].
    eapply Z.lt_trans; [exact Hlt|]. now vm_compute. }
  set (e := (L - 52)%Z).
  assert (He : (0 < 2 ^ e)%Z) by (apply Z.pow_pos_nonneg; unfold e; lia).
  assert (Hsplit : (2 ^ (L + 1) = 2 ^ 53 * 2 ^ e)%Z).
  { rewrite <- Z.pow_add_r by (unfold e; lia). f_equal. unfold e. lia. }
  set (q := (m / 2 ^ e)%Z).
  assert (Hq : (0 <= q < 2 ^ 53)%Z).
  { split; [apply Z.div_pos; lia|].
    apply Z.div_lt_upper_bound; [exact He|]. lia. }
  match goal with
  | |- context [if ?c then (q + 1)%Z else q] =>
      set (q' := if c then (q + 1)%Z else q)
  end.
  assert (Hq' : (q <= q' <= q + 1)%Z)
    by (unfold q'; match goal with |- context [if ?c then _ else _] =>
          destruct c end; lia).
  assert (Hfit : (q' * 2 ^ e < 2 ^ 1024)%Z).
  { destruct (Z.eq_dec L 1023) as [E|E].
    - assert (e = 971%Z) by (unfold e; lia).
      assert (q < 2 ^ 53 - 1)%Z.
      { apply Z.div_lt_upper_bound; [exact He|].
        eapply Z.lt_le_trans; [exact Hlt|].
        replace e with 971%Z. now vm_compute. }
      replace e with 971%Z in *.
      apply Z.le_lt_trans with ((2 ^ 53 - 1) * 2 ^ 971)%Z;
        [apply Z.mul_le_mono_nonneg_r; lia | now vm_compute].
    - assert (2 ^ e <= 2 ^ 970)%Z
        by (apply Z.pow_le_mono_r; unfold e; lia).
      apply Z.le_lt_trans with (2 ^ 53 * 2 ^ 970)%Z;
        [|now vm_compute].
      apply Z.mul_le_mono_nonneg; lia. }
  apply Z.leb_gt in Hfit. rewrite Hfit. discriminate.
Qed.

(** What [roundToDouble] returns is a double. *)
Lemma roundToDouble_double (m v : Z) :
  (0 < m)%Z -> roundToDouble m = Some v -> isDouble v /\ (0 < v)%Z.
Proof.
  intros Hpos. unfold roundToDouble.
  destruct (m <? 2 ^ 53)%Z eqn:Esmall.
  - intros [= <-]. apply Z.ltb_lt in Esmall. split; [|exact Hpos].
    exists m, 0%Z. rewrite Z.abs_eq by lia.
    repeat split;
      first [lia | eapply Z.lt_trans; [exact Esmall | now vm_compute]].
  - apply Z.ltb_ge in Esmall.
    set (L := Z.log2 m).
    assert (HL : (2 ^ L <= m < 2 ^ (L + 1))%Z).
    { pose proof (Z.log2_spec m Hpos) as H. unfold L.
      rewrite <- Z.add_1_r in H. exact H. }
    assert (HL53 : (53 <= L)%Z) by (apply Z.log2_le_pow2; lia).
    set (e := (L - 52)%Z).
    assert (He : (0 < 2 ^ e)%Z)
      by (apply Z.pow_pos_nonneg; unfold e; lia).
    assert (Hsplit : (2 ^ (L + 1) = 2 ^ 53 * 2 ^ e)%Z).
    { rewrite <- Z.pow_add_r by (unfold e; lia). f_equal. unfold e. lia. }
    assert (Hlow : (2 ^ L = 2 ^ 52 * 2 ^ e)%Z).
    { rewrite <- Z.pow_add_r by (unfold e; lia). f_equal. unfold e. lia. }
    set (q := (m / 2 ^ e)%Z).
    assert (Hq : (2 ^ 52 <= q < 2 ^ 53)%Z).
    { split.
      - apply Z.div_le_lower_bound; [exact He|]. lia.
      - apply Z.div_lt_upper_bound; [exact He|]. lia. }
    match goal with
    | |- context [if ?c then (q + 1)%Z else q] =>
        set (q' := if c then (q + 1)%Z else q)
    end.
    assert (Hq' : (q <= q' <= q + 1)%Z)
      by (unfold q'; match goal with |- context [if ?c then _ else _] =>
            destruct c end; lia).
    destruct (2 ^ 1024 <=? q' * 2 ^ e)%Z eqn:Efit; [discriminate|].
    apply Z.leb_gt in Efit. intros [= <-].
    assert (0 < q' * 2 ^ e)%Z by (apply Z.mul_pos_pos; lia).
    split; [|assumption].
    exists q', e. rewrite Z.abs_eq by lia.
    repeat split; first [lia | unfold e; lia].
Qed.

(** A finite value that [parseInt] returns is a double. *)
Lemma parseInt10_double (s : string) (z : Z) :
  parseInt10 s = Num z -> isDouble z.
Proof.
  unfold parseInt10.
  set (sign := match trimStart s with
               | String a _ => if Ascii.eqb a "-" then (-1)%Z else 1%Z
               | EmptyString => 1%Z
               end).
  assert (Hsign : sign = 1%Z \/ sign = (-1)%Z).
  { unfold sign. destruct (trimStart s) as [|a r]; [now left|].
    destruct (Ascii.eqb a "-"); auto. }
  destruct (match trimStart s with
            | String a r =>
                if Ascii.eqb a "+" || Ascii.eqb a "-" then r
                else trimStart s
            | EmptyString => trimStart s
            end) as [|a r] eqn:Eb; [discriminate|].
  destruct (isDigit a) eqn:Ea; [|discriminate].
  pose proof (readDigits_bound (String a r) 0 ltac:(lia)) as [H0 _].
  unfold toNumber.
  destruct (readDigits 0 (String a r) =? 0)%Z eqn:E0.
  - destruct (sign =? -1)%Z; [discriminate|]. intros [= <-].
    exists 0%Z, 0%Z. repeat split; first [lia | now vm_compute].
  - apply Z.eqb_neq in E0.
    destruct (roundToDouble (readDigits 0 (String a r))) as [v|] eqn:Er.
    + intros [= <-].
      assert (Hpos : (0 < readDigits 0 (String a r))%Z) by lia.
      destruct (roundToDouble_double _ v Hpos Er)
        as [(q & e & Habs & Hq & He & Hlt) Hv].
      exists q, e. rewrite Z.abs_eq in Habs, Hlt by lia.
      replace (Z.abs (sign * v)) with v
        by (destruct Hsign as [-> | ->]; lia).
      auto.
    + destruct (sign =? -1)%Z; discriminate.
Qed.

(** On text of at most 308 characters [parseInt] returns no infinity. *)
Lemma parseInt10_finite (s : string) :
  (String.length s <= 308)%nat ->
  parseInt10 s <> Infinity /\ parseInt10 s <> NegInfinity.
Proof.
  intros Hlen. pose proof (trimStart_length s) as Ht.
  unfold parseInt10.
  set (t := trimStart s) in *.
  set (sign := match t with
               | String a _ => if Ascii.eqb a "-" then (-1)%Z else 1%Z
               | EmptyString => 1%Z
               end).
  set (body := match t with
               | String a r =>
                   if Ascii.eqb a "+" || Ascii.eqb a "-" then r else t
               | EmptyString => t
               end).
  assert (Hbody : (String.length body <= 308)%nat).
  { unfold body. destruct t as [|a r]; [simpl; lia|].
    destruct (Ascii.eqb a "+" || Ascii.eqb a "-"); simpl in *; lia. }
  destruct body as [|a r] eqn:Eb; [split; discriminate|].
  destruct (isDigit a); [|split; discriminate].
  rewrite <- Eb in *. clear Eb.
  destruct (readDigits_bound body 0 ltac:(lia)) as [H0 H1].
  assert (Hm : (readDigits 0 body < 10 ^ 308)%Z).
  { eapply Z.lt_le_trans; [exact H1|]. rewrite Z.mul_1_l.
    apply Z.pow_le_mono_r; lia. }
  unfold toNumber.
  destruct (readDigits 0 body =? 0)%Z eqn:E0.
  - destruct (sign =? -1)%Z; split; discriminate.
  - apply Z.eqb_neq in E0.
    destruct (roundToDouble (readDigits 0 body)) eqn:Er;
      [split; discriminate|].
    exfalso. eapply roundToDouble_finite; [|exact Er]. lia.
Qed.

(** X2. As long as the [maxOccurs] text has at most 308 characters,
    [max] is [Infinity] exactly when the text is [unbounded], letter for
    letter; as long as the [minOccurs] text has at most 308 characters,
    [min] is not [Infinity]; an absent attribute gives no [Infinity]
    either. *)
Theorem parseMinMaxOccurs_infinity (n : Node) :
  (forall s, getAttribute n "maxOccurs" = Some s ->
     (String.length s <= 308)%nat ->
     (max (parseMinMaxOccurs n) = Infinity <-> s = "unbounded"))
  /\ (getAttribute n "maxOccurs" = None
      -> max (parseMinMaxOccurs n) <> Infinity)
  /\ (forall s, getAttribute n "minOccurs" = Some s ->
        (String.length s <= 308)%nat ->
        min (parseMinMaxOccurs n) <> Infinity)
  /\ (getAttribute n "minOccurs" = None
      -> min (parseMinMaxOccurs n) <> Infinity).
Proof.
  unfold parseMinMaxOccurs. cbn [min max].
  split; [|split; [|split]].
  - intros s -> Hlen.
    destruct (String.eqb s "") eqn:Ee.
    + apply String.eqb_eq in Ee. subst s. split; discriminate.
    + destruct (String.eqb s "unbounded") eqn:Eu.
      * apply String.eqb_eq in Eu. now subst.
      * apply String.eqb_neq in Eu.
        destruct (parseInt10_finite s Hlen) as [Hfin _]. tauto.
  - now intros ->.
  - intros s -> Hlen.
    destruct (String.eqb s ""); [discriminate|].
    now destruct (parseInt10_finite s Hlen).
  - now intros ->.
Qed.

Lemma numeral_digits (d : Decimal.uint) :
  forallb_string isDigit (NilEmpty.string_of_uint d) = true.
Proof. induction d; simpl; auto. Qed.

Lemma decimalValue_numeral (d : Decimal.uint) (acc : nat) :
  readDigits (Z.of_nat acc) (NilEmpty.string_of_uint d)
  = Z.of_nat (Nat.of_uint_acc d acc).
Proof.
  revert acc.
  induction d as [|d IH|d IH|d IH|d IH|d IH|d IH|d IH|d IH|d IH|d IH];
    intros acc; cbn [NilEmpty.string_of_uint Nat.of_uint_acc];
    [reflexivity| .. ];
    cbn [readDigits];
    match goal with
    | |- context [isDigit ?c] => change (isDigit c) with true
    end;
    cbn iota; rewrite <- IH; f_equal;
    rewrite ?Nat.tail_mul_spec; unfold digitValue;
    match goal with
    | |- context [nat_of_ascii ?c] =>
        let v := eval vm_compute in (nat_of_ascii c) in
        change (nat_of_ascii c) with v
    end; lia.
Qed.

Lemma parseInt10_of_numeral (a : nat) :
  (Z.of_nat a < 2 ^ 53)%Z ->
  numeral a <> "" /\ numeral a <> "unbounded"
  /\ parseInt10 (numeral a) = Num (Z.of_nat a).
Proof.
  intros Hbound. unfold numeral.
  assert (Hnil : Nat.to_uint a <> Decimal.Nil).
  { rewrite <- (DecimalNat.Unsigned.of_to a) at 1.
    rewrite DecimalNat.Unsigned.to_of. apply unorm_nonnil. }
  pose proof (numeral_digits (Nat.to_uint a)) as Hds.
  pose proof (decimalValue_numeral (Nat.to_uint a) 0) as Hval.
  change (Nat.of_uint_acc (Nat.to_uint a) 0)
    with (Nat.of_uint (Nat.to_uint a)) in Hval.
  rewrite DecimalNat.Unsigned.of_to in Hval.
  assert (Hne : NilEmpty.string_of_uint (Nat.to_uint a) <> "")
    by (destruct (Nat.to_uint a); [congruence | discriminate ..]).
  pose proof (readDigits_value _ 0%Z Hds) as Hrv.
  change (Z.of_nat 0) with 0%Z in Hval. rewrite Hval in Hrv.
  assert (Hdv : decimalValue (NilEmpty.string_of_uint (Nat.to_uint a))
                = Z.of_nat a) by lia.
  destruct (parseInt10_numeral _ Hne Hds) as [Hp _]; [lia|].
  split; [exact Hne|]. split.
  - intros E. rewrite E in Hds. discriminate.
  - rewrite Hp. f_equal. exact Hdv.
Qed.

(** X3. Occurrence bounds written as the decimal numerals of numbers
    below 2^53 are read back as the numbers they write, whatever their
    order: the range is returned as it stands, also when [min] exceeds
    [max]. *)
Theorem parseMinMaxOccurs_numerals (n : Node) (a b : nat) :
  (Z.of_nat a < 2 ^ 53)%Z -> (Z.of_nat b < 2 ^ 53)%Z ->
  getAttribute n "minOccurs" = Some (numeral a) ->
  getAttribute n "maxOccurs" = Some (numeral b) ->
  parseMinMaxOccurs n
  = {| min := Num (Z.of_nat a); max := Num (Z.of_nat b) |}.
Proof.
  intros Hba Hbb Ha Hb.
  destruct (parseInt10_of_numeral a Hba) as (Hea & _ & Hpa).
  destruct (parseInt10_of_numeral b Hbb) as (Heb & Hub & Hpb).
  pose proof (parseMinMaxOccurs_min _ _ Ha Hea) as Hmin.
  pose proof (parseMinMaxOccurs_max _ _ Hb Heb Hub) as Hmax.
  destruct (parseMinMaxOccurs n) as [mn mx]. cbn [min max] in *.
  congruence.
Qed.

Lemma parseMinMaxOccurs_numerals_witness :
  parseMinMaxOccurs Samples.itemNode
  = {| min := Num (Z.of_nat 0); max := Num (Z.of_nat 5) |}.
Proof.
  apply (parseMinMaxOccurs_numerals Samples.itemNode 0 5); reflexivity.
Defined.

Example parseInt10_rounds :
  parseInt10 "9007199254740993" = Num 9007199254740992
  /\ parseInt10 "-0" = NegZero
  /\ parseInt10 ("1" ++ concat "" (repeat "0" 309)) = Infinity
  /\ parseInt10 ("-1" ++ concat "" (repeat "0" 309)) = NegInfinity
  /\ parseInt10 ("17976931348623157" ++ concat "" (repeat "0" 292))
     = Num ((2 ^ 53 - 1) * 2 ^ 971).
Proof. repeat split; vm_compute; reflexivity. Qed.

(** *** Type references *)

Lemma upto_no_separator (c : ascii) (s : string) :
  occurs c (upto c s) = false.
Proof.
  induction s as [|a s IH]; simpl; [reflexivity|].
  destruct (Ascii.eqb a c) eqn:E; simpl; [reflexivity|].
  now rewrite E.
Qed.

Lemma getTypeFromNodeAttr_some (node : Node) (typeAttr : string)
    (typeAttrNS : option string) (t : TypeReference) :
  getTypeFromNodeAttr node typeAttr typeAttrNS = Some t ->
  exists v, attributeValue node typeAttr typeAttrNS = Some v /\ v <> ""
            /\ t = {| typeNamespaceURI :=
                        lookupNamespaceURI node (upto ":" v);
                      typeName := option_map (upto ":") (after ":" v) |}.
Proof.
  intros Ht.
  destruct (attributeValue node typeAttr typeAttrNS) as [v|] eqn:Ev.
  - destruct v as [|a v].
    + rewrite getTypeFromNodeAttr_absent in Ht by auto. discriminate.
    + exists (String a v). split; [reflexivity|]. split; [discriminate|].
      rewrite (getTypeFromNodeAttr_value _ _ _ _ Ev) in Ht
        by discriminate.
      congruence.
  - rewrite getTypeFromNodeAttr_absent in Ht by auto. discriminate.
Qed.

(** X4. A name that [getTypeFromNodeAttr] returns never contains a
    colon. *)
Theorem getTypeFromNodeAttr_name_plain (node : Node) (typeAttr : string)
    (typeAttrNS : option string) (t : TypeReference) (l : string) :
  getTypeFromNodeAttr node typeAttr typeAttrNS = Some t ->
  typeName t = Some l ->
  occurs ":" l = false.
Proof.
  intros Ht Hl.
  destruct (getTypeFromNodeAttr_some _ _ _ _ Ht) as (v & _ & _ & ->).
  cbn [typeName] in Hl.
  destruct (after ":" v) as [w|]; [|discriminate].
  injection Hl as <-. apply upto_no_separator.
Qed.

Lemma getTypeFromNodeAttr_name_plain_witness :
  getTypeFromNodeAttr (Samples.holder "type" "a:b:c") "type" None
  = Some {| typeNamespaceURI := None; typeName := Some "b" |}
  /\ occurs ":" "b" = false.
Proof.
  split; [reflexivity|].
  apply (getTypeFromNodeAttr_name_plain
           (Samples.holder "type" "a:b:c") "type" None
           {| typeNamespaceURI := None; typeName := Some "b" |} "b");
    reflexivity.
Defined.

(** X5. Whatever follows a second colon is ignored: the value
    [p:l:rest] gives the same reference as the value [p:l]. *)
Theorem getTypeFromNodeAttr_rest_ignored (node : Node) (typeAttr : string)
    (typeAttrNS : option string) (p l rest : string) :
  attributeValue node typeAttr typeAttrNS
  = Some (p ++ ":" ++ l ++ ":" ++ rest) ->
  occurs ":" p = false -> occurs ":" l = false ->
  getTypeFromNodeAttr node typeAttr typeAttrNS
  = Some {| typeNamespaceURI := lookupNamespaceURI node p;
            typeName := Some l |}.
Proof.
  intros Hv Hp Hl.
  rewrite (getTypeFromNodeAttr_value _ _ _ _ Hv)
    by (destruct p; discriminate).
  cbn [append].
  destruct (upto_after_join ":" p (l ++ String ":" rest) Hp) as [-> ->].
  cbn [option_map].
  now destruct (upto_after_join ":" l rest Hl) as [-> _].
Qed.

Lemma getTypeFromNodeAttr_rest_ignored_witness :
  getTypeFromNodeAttr (Samples.holder "type" "a:b:c") "type" None
  = Some {| typeNamespaceURI :=
              lookupNamespaceURI (Samples.holder "type" "a:b:c") "a";
            typeName := Some "b" |}.
Proof.
  apply (getTypeFromNodeAttr_rest_ignored _ "type" None "a" "b" "c");
    reflexivity.
Defined.

(** *** Restrictions *)

(** X6. [getRestrictedType] returns null in two cases only: the node has
    no [xs:restriction] child, or its first [xs:restriction] child has
    no [base] attribute or an empty one.  In the second case
    [findRestrictingFacets] still returns the facets, so null does not
    tell that there is no restriction. *)
Theorem getRestrictedType_null (node : Node) :
  getRestrictedType node = None
  <-> ((forall c, In c (children node) -> ~ isRestriction c)
       \/ exists r, firstMatch isRestriction (children node) r
                    /\ (getAttribute r "base" = None
                        \/ getAttribute r "base" = Some "")
                    /\ findRestrictingFacets node = Ok (children r)).
Proof.
  unfold getRestrictedType, findRestrictingFacets.
  change (find _ (children node))
    with (find restrictionTest (children node)).
  destruct (restriction_child_cases node) as [(r & Hr & E)|[Hno E]];
    rewrite E.
  - split.
    + intros Hnull. right. exists r. split; [exact Hr|].
      split; [|reflexivity].
      destruct (getAttribute r "base") as [[|a v]|] eqn:Eb; auto.
      rewrite (getTypeFromNodeAttr_value r "base" None (String a v))
        in Hnull; [discriminate | exact Eb | discriminate].
    + intros [Hno | (r' & Hr' & Hb & _)].
      * exfalso. destruct Hr as (l1 & l2 & Hl & Hx & _).
        apply (Hno r); [rewrite Hl; apply in_elt | exact Hx].
      * apply firstMatch_find_restriction in Hr'.
        assert (r' = r) by congruence. subst r'.
        now apply getTypeFromNodeAttr_absent.
  - split; auto.
Qed.

Lemma getRestrictedType_base (node r : Node) (p l : string) :
  firstMatch isRestriction (children node) r ->
  getAttribute r "base" = Some (p ++ ":" ++ l) ->
  occurs ":" p = false -> occurs ":" l = false ->
  getRestrictedType node
  = Some {| typeNamespaceURI := lookupNamespaceURI r p;
            typeName := Some l |}.
Proof.
  intros Hr Hb Hp Hl. unfold getRestrictedType.
  change (find _ (children node))
    with (find restrictionTest (children node)).
  rewrite (firstMatch_find_restriction _ _ Hr).
  rewrite (getTypeFromNodeAttr_value r "base" None _ Hb)
    by (destruct p; discriminate).
  cbn [append]. destruct (upto_after_join ":" p l Hp) as [-> ->].
  cbn [option_map]. now destruct (upto_no_occurrence ":" l Hl) as [-> _].
Qed.

(** X7. When the base type is written with the prefix of the
    [xs:restriction] element itself, as in [<xs:restriction
    base="xs:string">], the restricted type is in the XML Schema
    namespace, whatever the namespace declarations in scope. *)
Theorem getRestrictedType_same_prefix (node r : Node) (p l : string) :
  firstMatch isRestriction (children node) r ->
  getAttribute r "base" = Some (p ++ ":" ++ l) ->
  occurs ":" p = false -> occurs ":" l = false ->
  prefix (element r) = Some p ->
  p <> "" -> p <> "xml" -> p <> "xmlns" ->
  getRestrictedType node
  = Some {| typeNamespaceURI := Some xs; typeName := Some l |}.
Proof.
  intros Hr Hb Hp Hl Hown Hne Hxml Hxmlns.
  rewrite (getRestrictedType_base _ _ _ _ Hr Hb Hp Hl). f_equal. f_equal.
  destruct Hr as (_ & _ & _ & (Hns & _) & _).
  unfold lookupNamespaceURI. apply truthy_nonempty in Hne. rewrite Hne.
  cbn [locateNamespace opt_eqb].
  apply String.eqb_neq in Hxml, Hxmlns.
  rewrite Hxml, Hxmlns, Hns, Hown. cbn [opt_eqb].
  now rewrite String.eqb_refl.
Qed.

Lemma getRestrictedType_same_prefix_witness :
  getRestrictedType Samples.codeNode
  = Some {| typeNamespaceURI := Some xs; typeName := Some "string" |}.
Proof.
  apply (getRestrictedType_same_prefix Samples.codeNode
           (nth 1 (children Samples.codeNode) Samples.codeNode)
           "xs" "string");
    try reflexivity; try discriminate.
  exists [nth 0 (children Samples.codeNode) Samples.codeNode], [].
  repeat split.
  constructor; [|constructor]. intros [_ H]. discriminate.
Defined.

(** X8. When the [xs:restriction] element neither carries the prefix of
    the base type in its own name nor declares it, the prefix is
    resolved with the declarations in scope at the node itself. *)
Theorem getRestrictedType_outer_scope (node r : Node) (p l : string) :
  firstMatch isRestriction (children node) r ->
  getAttribute r "base" = Some (p ++ ":" ++ l) ->
  occurs ":" p = false -> occurs ":" l = false ->
  prefix (element r) <> (if truthy p then Some p else None) ->
  find (declares (if truthy p then Some p else None))
       (attributes (element r)) = None ->
  getRestrictedType node
  = Some {| typeNamespaceURI := lookupNamespaceURI node p;
            typeName := Some l |}.
Proof.
  intros Hr Hb Hp Hl Hown Hdecl.
  rewrite (getRestrictedType_base _ _ _ _ Hr Hb Hp Hl). f_equal. f_equal.
  apply lookupNamespaceURI_inherited; auto.
  destruct Hr as (l1 & l2 & -> & _). apply in_elt.
Qed.

Lemma getRestrictedType_outer_scope_witness :
  getRestrictedType MoreSamples.derivedNode
  = Some {| typeNamespaceURI :=
              lookupNamespaceURI MoreSamples.derivedNode "t";
            typeName := Some "code" |}.
Proof.
  apply (getRestrictedType_outer_scope MoreSamples.derivedNode
           (nth 0 (children MoreSamples.derivedNode)
                MoreSamples.derivedNode)
           "t" "code");
    try reflexivity; try discriminate.
  exists [], []. repeat split. constructor.
Defined.

Example getRestrictedType_outer_scope_value :
  getRestrictedType MoreSamples.derivedNode
  = Some {| typeNamespaceURI := Some "urn:example:types";
            typeName := Some "code" |}.
Proof. reflexivity. Qed.

Example getRestrictedType_first_restriction_only :
  getRestrictedType MoreSamples.baseless = None
  /\ findRestrictingFacets MoreSamples.baseless = Ok [].
Proof. split; reflexivity. Qed.

(** *** Type definitions *)

Lemma subtree_inDocument (doc : Document) :
  forall (e : Element) (up : list Element) (n : Node),
    inDocument doc {| element := e; ancestors := up |} ->
    In n (subtree up e) -> inDocument doc n.
Proof.
  fix IH 1. intros e up n Hroot Hn.
  destruct e as [ns pf ln attrs kids]. cbn [subtree childElements] in Hn.
  destruct Hn as [<- | Hn]; [exact Hroot|].
  set (e := {| namespaceURI := ns; prefix := pf; localName := ln;
               attributes := attrs; childElements := kids |}) in *.
  assert (Hkids : forall k, In k kids ->
            inDocument doc {| element := k; ancestors := e :: up |}).
  { intros k Hk. apply (in_child doc _ _ Hroot).
    unfold children. cbn [element ancestors].
    apply in_map_iff. exists k. split; [reflexivity | exact Hk]. }
  clearbody e. clear Hroot. revert Hkids Hn.
  induction kids as [|k ks IHks]; cbn [flat_map]; [intros _ []|].
  intros Hkids Hn. apply in_app_iff in Hn as [Hn | Hn].
  - apply (IH k (e :: up) n); [apply Hkids; now left | exact Hn].
  - apply IHks; [|exact Hn]. intros k' Hk'. apply Hkids. now right.
Qed.

(** The enumeration [elements] lists the nodes of the document, at any
    depth, and nothing else. *)
Lemma elements_inDocument (doc : Document) (n : Node) :
  In n (elements doc) <-> inDocument doc n.
Proof.
  split.
  - apply subtree_inDocument. apply in_root.
  - intros H. induction H as [|n c _ IH Hc].
    + apply elements_root.
    + exact (elements_children doc n c IH Hc).
Qed.

(** X9. [findTypeDefinition] searches the whole tree: for a type name
    that can stand unescaped between double quotes, a node is returned
    exactly when it is a node of the document, at any depth, whose
    local name is [complexType] or [simpleType] and whose plain [name]
    attribute is the type name. *)
Theorem findTypeDefinition_any_depth (doc : Document) (type : string) :
  selectorSafe type ->
  exists l,
    findTypeDefinition doc type = Ok l
    /\ forall n, In n l
                 <-> inDocument doc n /\ isTypeDefinitionNamed type n = true.
Proof.
  intros Hsafe. eexists. split.
  - unfold findTypeDefinition, querySelectorAll.
    rewrite (parseSelector_type type Hsafe). reflexivity.
  - intros n. rewrite filter_In, elements_inDocument.
    now rewrite matches_type_definition.
Qed.

Lemma findTypeDefinition_any_depth_witness :
  exists l,
    findTypeDefinition Samples.ambiguous "t" = Ok l
    /\ forall n, In n l
                 <-> inDocument Samples.ambiguous n
                     /\ isTypeDefinitionNamed "t" n = true.
Proof.
  apply (findTypeDefinition_any_depth Samples.ambiguous "t").
  reflexivity.
Defined.

Lemma run_rejected (s : string) : run Rejected s = Rejected.
Proof. induction s as [|a s IH]; simpl; auto. Qed.

Lemma line_break_special (c : ascii) :
  isLineBreak c = true ->
  isStringSpecial c = true /\ Ascii.eqb c dquote = false.
Proof.
  destruct c as [[] [] [] [] [] [] [] []];
    (discriminate || (intros _; split; reflexivity)).
Qed.

(** X10. A type name with a line break after text that can stand between
    double quotes makes [findTypeDefinition] throw: the selector it
    builds is not a selector. *)
Theorem findTypeDefinition_line_break (doc : Document)
    (before rest : string) (c : ascii) :
  selectorSafe before -> isLineBreak c = true ->
  findTypeDefinition doc (before ++ String c rest) = Throw SyntaxError.
Proof.
  intros Hsafe Hc. destruct (line_break_special c Hc) as [Hs Hq].
  unfold findTypeDefinition, querySelectorAll, parseSelector.
  rewrite (run_app ("complexType[name=" ++ quote)).
  change (run (InType [] "") ("complexType[name=" ++ quote))
    with (InValue [] "complexType" "name" "").
  rewrite (append_append before), (run_app before).
  rewrite (run_value _ _ _ _ _ Hsafe).
  cbn [append run step]. rewrite Hq, Hs. now rewrite run_rejected.
Qed.

Lemma findTypeDefinition_line_break_witness :
  findTypeDefinition Samples.schema ("or" ++ String "010" "der")
  = Throw SyntaxError.
Proof.
  apply (findTypeDefinition_line_break Samples.schema "or" "der" "010");
    reflexivity.
Defined.

Lemma run_comma (done : list Compound) (s : string) :
  run (AtEnd done) (String "," s) = run (InType done "") s.
Proof. reflexivity. Qed.

(** X11. The type name goes into the selector unescaped.  A name made
    of [t], a double quote, the text [],element[name=], a double quote
    and [u] turns the selector into one that also selects the elements
    [element] named [u]: the call returns them along with the type
    definitions named [t]. *)
Theorem findTypeDefinition_unescaped (doc : Document) (t u : string) :
  selectorSafe t -> selectorSafe u ->
  findTypeDefinition doc (t ++ quote ++ "],element[name=" ++ quote ++ u)
  = Ok (filter (fun n => isTypeDefinitionNamed t n
                         || isTagNamed "element" u n)
               (elements doc)).
Proof.
  intros Ht Hu. unfold findTypeDefinition, querySelectorAll, parseSelector.
  set (crafted := t ++ quote ++ "],element[name=" ++ quote ++ u).
  replace (("complexType[name=" ++ quote) ++ crafted ++ (quote ++ "],")
           ++ ("simpleType[name=" ++ quote) ++ crafted ++ (quote ++ "]"))
    with (("complexType" ++ "[name=" ++ quote) ++ t
          ++ (quote ++ String "]" (String ","
          (("element" ++ "[name=" ++ quote) ++ u
          ++ (quote ++ String "]" (String ","
          (("simpleType" ++ "[name=" ++ quote) ++ t
          ++ (quote ++ String "]" (String ","
          (("element" ++ "[name=" ++ quote) ++ u
          ++ (quote ++ String "]" "")))))))))))
    by (unfold crafted; now rewrite !append_append).
  rewrite (run_compound "complexType" t _ _ Ht) by reflexivity.
  rewrite run_comma.
  rewrite (run_compound "element" u _ _ Hu) by reflexivity.
  rewrite run_comma.
  rewrite (run_compound "simpleType" t _ _ Ht) by reflexivity.
  rewrite run_comma.
  rewrite (run_compound "element" u _ _ Hu) by reflexivity.
  cbn [run app]. f_equal. apply filter_ext. intros n.
  unfold isTypeDefinitionNamed, isTagNamed, matchesCompound.
  cbn [existsb selType selAttr selValue].
  destruct (String.eqb (localName (element n)) "complexType"),
           (String.eqb (localName (element n)) "simpleType"),
           (String.eqb (localName (element n)) "element");
    cbn [andb orb];
    repeat match goal with
           | |- context [existsb ?f ?l] => destruct (existsb f l)
           end; reflexivity.
Qed.

Lemma findTypeDefinition_unescaped_witness :
  findTypeDefinition Samples.schema
    ("order" ++ quote ++ "],element[name=" ++ quote ++ "item")
  = Ok (filter (fun n => isTypeDefinitionNamed "order" n
                         || isTagNamed "element" "item" n)
               (elements Samples.schema)).
Proof.
  apply (findTypeDefinition_unescaped Samples.schema "order" "item");
    reflexivity.
Defined.

Example findTypeDefinition_unescaped_result :
  match findTypeDefinition Samples.schema
          ("order" ++ quote ++ "],element[name=" ++ quote ++ "item") with
  | Ok l => map (fun n => localName (element n)) l
  | Throw _ => []
  end = ["element"; "complexType"].
Proof. reflexivity. Qed.

(** *** From a type reference to its definition *)

Lemma safe_upto (c : ascii) (s : string) :
  selectorSafe s -> selectorSafe (upto c s).
Proof.
  unfold selectorSafe. induction s as [|a s IH]; simpl; [auto|].
  intros H. apply andb_true_iff in H as [Ha Hs].
  destruct (Ascii.eqb a c); simpl; [reflexivity|].
  now rewrite Ha, IH.
Qed.

Lemma safe_after (c : ascii) (s w : string) :
  selectorSafe s -> after c s = Some w -> selectorSafe w.
Proof.
  unfold selectorSafe. induction s as [|a s IH]; simpl; [discriminate|].
  intros H. apply andb_true_iff in H as [Ha Hs].
  destruct (Ascii.eqb a c); [now intros [= <-] | now apply IH].
Qed.

(** X12. The name of a reference read from an attribute value without
    double quote, backslash, NUL or line break can be handed to
    [findTypeDefinition]: the call does not throw and returns the
    definitions of that name. *)
Theorem findTypeDefinition_of_reference (doc : Document) (node : Node)
    (typeAttr : string) (typeAttrNS : option string) (v : string)
    (t : TypeReference) (l : string) :
  attributeValue node typeAttr typeAttrNS = Some v ->
  selectorSafe v ->
  getTypeFromNodeAttr node typeAttr typeAttrNS = Some t ->
  typeName t = Some l ->
  findTypeDefinition doc l
  = Ok (filter (isTypeDefinitionNamed l) (elements doc)).
Proof.
  intros Hv Hsafe Ht Hl.
  destruct (getTypeFromNodeAttr_some _ _ _ _ Ht) as (v' & Hv' & _ & ->).
  assert (v' = v) by congruence. subst v'. cbn [typeName] in Hl.
  destruct (after ":" v) as [w|] eqn:Ew; [|discriminate].
  injection Hl as <-.
  unfold findTypeDefinition, querySelectorAll.
  rewrite parseSelector_type
    by (apply safe_upto; exact (safe_after _ _ _ Hsafe Ew)).
  f_equal. apply filter_ext. intros n. apply matches_type_definition.
Qed.

Lemma findTypeDefinition_of_reference_witness :
  findTypeDefinition MoreSamples.library "code"
  = Ok (filter (isTypeDefinitionNamed "code")
               (elements MoreSamples.library)).
Proof.
  apply (findTypeDefinition_of_reference MoreSamples.library
           (nth 0 (children MoreSamples.derivedNode)
                MoreSamples.derivedNode)
           "base" None "t:code"
           {| typeNamespaceURI := Some "urn:example:types";
              typeName := Some "code" |} "code");
    reflexivity.
Defined.

(** *** Facets and attributes *)

(** X13. The facets that [findRestrictingFacets] returns for a node of a
    document are nodes of that document: each is a child of an
    [xs:restriction] child of the node. *)
Theorem findRestrictingFacets_in_document (doc : Document) (node : Node)
    (l : list Node) :
  inDocument doc node ->
  findRestrictingFacets node = Ok l ->
  forall f, In f l ->
    inDocument doc f
    /\ exists r, In r (children node) /\ isRestriction r
                 /\ In f (children r).
Proof.
  intros Hnode Hl f Hf. unfold findRestrictingFacets in Hl.
  change (find _ (children node))
    with (find restrictionTest (children node)) in Hl.
  destruct (find restrictionTest (children node)) as [r|] eqn:E;
    [|discriminate].
  injection Hl as <-. apply find_some in E as [Hr Ht].
  split.
  - apply (in_child doc r f); [|exact Hf].
    exact (in_child doc node r Hnode Hr).
  - exists r. split; [exact Hr|]. split; [|exact Hf].
    now apply restriction_test.
Qed.

Lemma findRestrictingFacets_in_document_witness :
  inDocument Samples.schema
    (nth 0 (children (nth 1 (children Samples.codeNode) Samples.codeNode))
         Samples.codeNode)
  /\ exists r, In r (children Samples.codeNode) /\ isRestriction r
               /\ In (nth 0 (children (nth 1 (children Samples.codeNode)
                                          Samples.codeNode))
                          Samples.codeNode)
                     (children r).
Proof.
  apply (findRestrictingFacets_in_document Samples.schema
           Samples.codeNode
           (children (nth 1 (children Samples.codeNode)
                          Samples.codeNode))).
  - apply (in_child _ Samples.schemaNode); [apply in_root|].
    right. right. left. reflexivity.
  - reflexivity.
  - left. reflexivity.
Defined.

(** X14. With an attribute namespace that no attribute of the node is
    in, [getTypeFromNodeAttr] returns null, also when the node has a
    plain attribute of the name asked for. *)
Theorem getTypeFromNodeAttr_foreign_namespace (node : Node)
    (typeAttr ns : string) :
  ns <> "" ->
  (forall a, In a (attributes (element node))
             -> attrNamespaceURI a <> Some ns) ->
  getTypeFromNodeAttr node typeAttr (Some ns) = None.
Proof.
  intros Hne Hall. apply getTypeFromNodeAttr_absent. left.
  destruct ns as [|c ns]; [congruence|].
  cbn [attributeValue]. unfold getAttributeNS. cbn [truthy].
  replace (find _ (attributes (element node))) with (@None Attr);
    [reflexivity|].
  symmetry. apply find_none_forall, Forall_forall.
  intros a Ha Ht. apply andb_true_iff in Ht as [Hns _].
  apply opt_eqb_eq in Hns. exact (Hall a Ha Hns).
Qed.

Lemma getTypeFromNodeAttr_foreign_namespace_witness :
  getAttribute Samples.itemNode "type" = Some "xs:string"
  /\ getTypeFromNodeAttr Samples.itemNode "type"
       (Some xsi) = None.
Proof.
  split; [reflexivity|].
  apply (getTypeFromNodeAttr_foreign_namespace Samples.itemNode "type" xsi).
  - discriminate.
  - intros a Ha. cbn in Ha.
    destruct Ha as [<- | [<- | [<- | [<- | []]]]]; discriminate.
Defined.
